(** * svg-resize: the length parser and the resize engine of [svg-resize.py]

    A shallow embedding of [parse_length] and [resize_svg] and the
    properties of the specification that concern them.

    Conventions of the model.
    - Python floats are modelled by exact rationals ([Qc], canonical
      fractions with Leibniz equality).  Rounding, overflow and the special
      values of IEEE arithmetic are outside the model; a float division by
      zero raises [ZeroDivisionError] as in Python.
    - Strings are 8-bit strings, and the regular-expression classes [\s]
      and [\d] have their ASCII meaning.
    - The rendering of a float by ['{}'.format] is a parameter
      ([format_float]) of the engine.
    - An lxml element is its tag, namespace map, attributes and children. *)

From Stdlib Require Import QArith Qcanon Lqa Ascii String List.
From stdpp Require Import base numbers strings gmap pretty.

Open Scope string_scope.
Open Scope Qc_scope.

Set Warnings "-register-all".

(** ** Numbers *)

(** A float literal [d] of the source is written [Q2Qc d]: the rational it
    denotes. *)

Definition Qc_ltb (x y : Qc) : bool := bool_decide (x < y).
Definition Qc_leb (x y : Qc) : bool := bool_decide (x ≤ y).
Definition Qc_eqb (x y : Qc) : bool := bool_decide (x = y).

(** Python's [max(0, x)] and [min(x, y)] on numbers. *)
Definition Qc_max0 (x : Qc) : Qc := if Qc_ltb 0 x then x else 0.
Definition Qc_min (x y : Qc) : Qc := if Qc_ltb y x then y else x.

(** ** Exceptions *)

Inductive exn : Type :=
| Exception (msg : string)
| ZeroDivisionError.

Definition result (A : Type) : Type := exn + A.
Definition Ok {A} (a : A) : result A := inr a.
Definition Raise {A} (e : exn) : result A := inl e.

Definition rbind {A B} (r : result A) (k : A -> result B) : result B :=
  match r with
  | inl e => inl e
  | inr a => k a
  end.

Notation "'let?' x ':=' r 'in' k" := (rbind r (fun x => k))
  (at level 10, x name, r at level 100, k at level 200).
Notation "'let?' ' p ':=' r 'in' k" := (rbind r (fun p => k))
  (at level 10, p strict pattern, r at level 100, k at level 200).

(** Float division [x / y]. *)
Definition fdiv (x y : Qc) : result Qc :=
  if Qc_eqb y 0 then Raise ZeroDivisionError else Ok (x / y).

(** ** Strings and the regular expressions of the source *)

Module Re.

(** [\s] on 8-bit strings: space, [\t], [\n], [\v], [\f], [\r]. *)
Definition is_space (c : ascii) : bool :=
  let n := nat_of_ascii c in
  (n =? 32)%nat || ((9 <=? n)%nat && (n <=? 13)%nat).

(** [\d] *)
Definition is_digit (c : ascii) : bool :=
  let n := nat_of_ascii c in
  (48 <=? n)%nat && (n <=? 57)%nat.

(** The separator class [[ ,\t]] of the viewBox splitter. *)
Definition is_sep (c : ascii) : bool :=
  let n := nat_of_ascii c in
  (n =? 32)%nat || (n =? 44)%nat || (n =? 9)%nat.

(** The longest prefix of [s] whose characters satisfy [p], and the rest:
    what a greedy [p*] consumes. *)
Fixpoint span (p : ascii -> bool) (s : string) : string * string :=
  match s with
  | EmptyString => (EmptyString, EmptyString)
  | String c s' =>
      if p c then let (a, b) := span p s' in (String c a, b)
      else (EmptyString, s)
  end.

Definition lstrip (s : string) : string := snd (span is_space s).
Definition rstrip (s : string) : string := String.rev (lstrip (String.rev s)).

(** [s.strip()] *)
Definition strip (s : string) : string := rstrip (lstrip s).

(** [re.split('[ ,\t]+', s)]: [tok] is the piece read so far, [skipping]
    says that the previous character was a separator. *)
Fixpoint split_go (skipping : bool) (tok : string) (s : string) : list string :=
  match s with
  | EmptyString => [tok]
  | String c s' =>
      if is_sep c then
        if skipping then split_go true EmptyString s'
        else tok :: split_go true EmptyString s'
      else split_go false (tok +:+ String c EmptyString) s'
  end.

Definition split (s : string) : list string := split_go false EmptyString s.

(** A match of
    [^\s*(-?\d+(?:\.\d+)?)\s*(px|in|cm|mm|pt|pc|%)?]. *)
Record length_match : Type := LengthMatch {
  group1 : string;
  group2 : option string
}.

(** The alternatives of group 2, in the order of the pattern. *)
Definition unit_alternatives : list string :=
  ["px"; "in"; "cm"; "mm"; "pt"; "pc"; "%"].

Fixpoint first_prefix (alts : list string) (s : string) : option string :=
  match alts with
  | [] => None
  | u :: alts' => if String.prefix u s then Some u else first_prefix alts' s
  end.

(** The rest of [s] after a leading character [c], if [s] starts with it. *)
Definition take_char (c : ascii) (s : string) : option string :=
  match s with
  | String c' t => if Ascii.eqb c' c then Some t else None
  | EmptyString => None
  end.

Definition is_empty (s : string) : bool :=
  match s with
  | EmptyString => true
  | String _ _ => false
  end.

(** The pattern from [\d+] on, matched against [s1]; [sign] is what [-?]
    has consumed. *)
Definition match_digits (sign s1 : string) : option length_match :=
  let '(int_part, s2) := span is_digit s1 in
  if is_empty int_part then None
  else
    let '(frac_part, s3) :=
      match take_char "." s2 with
      | Some t =>
          let '(ds, t') := span is_digit t in
          if is_empty ds then (EmptyString, s2) else (String "." ds, t')
      | None => (EmptyString, s2)
      end in
    let s4 := lstrip s3 in
    Some (LengthMatch (sign +:+ int_part +:+ frac_part)
                      (first_prefix unit_alternatives s4)).

(** [re.match] of the length pattern at the start of [value].  Every
    quantifier is greedy and everything after [\d+] is optional, so the
    first attempt of the backtracking matcher succeeds as soon as one
    digit is found, and nothing after the match is looked at. *)
Definition match_length (value : string) : option length_match :=
  let s0 := lstrip value in
  match take_char "-" s0 with
  | Some t => match_digits "-" t
  | None => match_digits EmptyString s0
  end.

End Re.

(** The value of a run of decimal digits. *)
Fixpoint digits_value (acc : N) (s : string) : N :=
  match s with
  | EmptyString => acc
  | String c s' =>
      digits_value (10 * acc + (N.of_nat (nat_of_ascii c) - 48))%N s'
  end.

(** [float(text)] on the texts group 1 of the length pattern can hold:
    an optional minus sign, digits, and optionally a point and digits. *)
Definition float (text : string) : Qc :=
  let '(negative, s) :=
    match Re.take_char "-" text with
    | Some t => (true, t)
    | None => (false, text)
    end in
  let '(int_part, rest) := Re.span Re.is_digit s in
  let frac_part :=
    match Re.take_char "." rest with
    | Some t => fst (Re.span Re.is_digit t)
    | None => EmptyString
    end in
  let mantissa := Z.of_N (digits_value 0 (int_part +:+ frac_part)) in
  let scale := Pos.pow 10 (Pos.of_nat (String.length frac_part)) in
  let v :=
    if Re.is_empty frac_part then Q2Qc (mantissa # 1)%Q
    else Q2Qc (mantissa # scale)%Q in
  if negative then - v else v.

(** ** The length parser *)

Definition dquote : string := String (ascii_of_nat 34) EmptyString.

Definition unknown_length_format (value : string) : exn :=
  Exception ("Unknown length format: " +:+ dquote +:+ value +:+ dquote).

Definition unknown_length_units (units : string) : exn :=
  Exception ("Unknown length units: " +:+ units).

(** [parse_length(value, def_units)]; [value] is a string or [None]. *)
Definition parse_length (value : option string) (def_units : string) : result Qc :=
  match value with
  | None | Some EmptyString => Ok (Q2Qc 0.0)
  | Some value =>
      match Re.match_length value with
      | None => Raise (unknown_length_format value)
      | Some parts =>
          let num := float (Re.group1 parts) in
          let units :=
            match Re.group2 parts with
            | None | Some EmptyString => def_units
            | Some u => u
            end in
          if String.eqb units "px" then Ok num
          else if String.eqb units "pt" then Ok (num * (Q2Qc 1.25))
          else if String.eqb units "pc" then Ok (num * (Q2Qc 15.0))
          else if String.eqb units "in" then Ok (num * (Q2Qc 90.0))
          else if String.eqb units "mm" then Ok (num * (Q2Qc 3.543307))
          else if String.eqb units "cm" then Ok (num * (Q2Qc 35.43307))
          else if String.eqb units "%" then Ok (- num / (Q2Qc 100.0))
          else Raise (unknown_length_units units)
      end
  end.

(** ** Documents *)

(** An lxml element: tag, namespace map declared on it, attributes,
    children. *)
Inductive element : Type :=
| Element (tag : string) (nsmap attrib : gmap string string)
          (children : list element).

Definition tag (e : element) : string :=
  match e with Element t _ _ _ => t end.
Definition nsmap (e : element) : gmap string string :=
  match e with Element _ ns _ _ => ns end.
Definition attrib (e : element) : gmap string string :=
  match e with Element _ _ a _ => a end.
Definition children (e : element) : list element :=
  match e with Element _ _ _ cs => cs end.

(** [e.set(key, value)] *)
Definition set_attrib (key value : string) (e : element) : element :=
  Element (tag e) (nsmap e) (<[key := value]> (attrib e)) (children e).

Definition append_child (c : element) (e : element) : element :=
  Element (tag e) (nsmap e) (attrib e) (children e ++ [c])%list.

(** A reference to an element of the tree is the path of child indices
    that leads to it from the root; the root [svg] is [[]].  Python holds
    such references in [svg], [layer] and [frame] and mutates the tree
    through them. *)
Definition ref : Type := list nat.

Fixpoint update_at (r : ref) (f : element -> element) (e : element) : element :=
  match r with
  | [] => f e
  | i :: r' =>
      Element (tag e) (nsmap e) (attrib e)
              (alter (update_at r' f) i (children e))
  end.

Fixpoint subtree (r : ref) (e : element) : option element :=
  match r with
  | [] => Some e
  | i :: r' =>
      match children e !! i with
      | Some c => subtree r' c
      | None => None
      end
  end.

(** ** Options *)

(** The [options] dictionary.  A length option is a string or [None]; a key
    that is absent and a key bound to [None] are both [None] here, the
    function below and [parse_length] treat them alike. *)
Record Options : Type := mkOptions {
  opt_width : option string;
  opt_height : option string;
  opt_longest : option string;
  opt_shortest : option string;
  opt_margin : option string;
  opt_trim : option bool;
  opt_frame : option bool
}.

Definition prepare_options (options : Options) : Options :=
  {| opt_width := opt_width options;
     opt_height := opt_height options;
     opt_longest := opt_longest options;
     opt_shortest := opt_shortest options;
     opt_margin :=
       match opt_margin options with
       | None => Some "0"
       | m => m
       end;
     opt_trim :=
       match opt_trim options with
       | None => Some false
       | t => t
       end;
     opt_frame :=
       match opt_frame options with
       | None => Some false
       | f => f
       end |}.

(** Truth value of a string-or-[None], of a flag-or-[None] and of a
    float-or-[None] in an [if]. *)
Definition truthy_str (v : option string) : bool :=
  match v with
  | Some (String _ _) => true
  | _ => false
  end.

Definition truthy_flag (v : option bool) : bool :=
  match v with
  | Some true => true
  | _ => false
  end.

(** The value of a float-or-[None] [v] when [if v:] holds: [None] and
    [0.0] are both false. *)
Definition nonzero (v : option Qc) : option Qc :=
  match v with
  | Some x => if Qc_eqb x 0 then None else Some x
  | None => None
  end.

(** ** The resize engine, block by block *)

(** The four floats of a usable [viewbox] list. *)
Record Viewbox : Type := mkViewbox { vb0 : Qc; vb1 : Qc; vb2 : Qc; vb3 : Qc }.

Definition missing_dimensions : exn :=
  Exception "SVG header must contain width and height attributes".
Definition invalid_dimensions : exn :=
  Exception "SVG width and height should be in absolute units and non-zero".

(** Lines 59-66: the declared viewBox, or [None]. *)
Definition read_viewbox (svg : element) : result (option Viewbox) :=
  let viewbox := Re.split (Re.strip (default "" (attrib svg !! "viewBox"))) in
  match viewbox with
  | [t0; t1; t2; t3] =>
      let? v0 := parse_length (Some t0) "px" in
      let? v1 := parse_length (Some t1) "px" in
      let? v2 := parse_length (Some t2) "px" in
      let? v3 := parse_length (Some t3) "px" in
      if Qc_leb (v2 * v3) (Q2Qc 0.0) then Ok None
      else Ok (Some (mkViewbox v0 v1 v2 v3))
  | _ => Ok None
  end.

(** Lines 55-74: source [width], [height] and [viewbox]. *)
Definition source_size (svg : element) : result (Qc * Qc * Viewbox) :=
  if negb (bool_decide (is_Some (attrib svg !! "width")))
     || negb (bool_decide (is_Some (attrib svg !! "height")))
  then Raise missing_dimensions
  else
    let? width := parse_length (attrib svg !! "width") "px" in
    let? height := parse_length (attrib svg !! "height") "px" in
    let? viewbox := read_viewbox svg in
    let? '(width, height) :=
      if Qc_leb width 0 || Qc_leb height 0 then
        match viewbox with
        | Some vb => Ok (vb2 vb, vb3 vb)
        | None => Raise invalid_dimensions
        end
      else Ok (width, height) in
    let viewbox :=
      match viewbox with
      | Some vb => vb
      | None => mkViewbox 0 0 width height
      end in
    Ok (width, height, viewbox).

(** Lines 77-95: [margin], and [twidth] and [theight] as the options give
    them. *)
Definition target_options (options : Options) (width height : Qc)
  : result (Qc * option Qc * option Qc) :=
  let? margin := parse_length (opt_margin options) "mm" in
  let twidth : option Qc := None in
  let theight : option Qc := None in
  let? twidth :=
    if truthy_str (opt_width options)
    then let? v := parse_length (opt_width options) "mm" in Ok (Some v)
    else Ok twidth in
  let? theight :=
    if truthy_str (opt_height options)
    then let? v := parse_length (opt_height options) "mm" in Ok (Some v)
    else Ok theight in
  let? '(twidth, theight) :=
    if truthy_str (opt_longest options) then
      let? value := parse_length (opt_longest options) "mm" in
      if Qc_ltb height width then Ok (Some value, theight)
      else Ok (twidth, Some value)
    else Ok (twidth, theight) in
  let? '(twidth, theight) :=
    if truthy_str (opt_shortest options) then
      let? value := parse_length (opt_shortest options) "mm" in
      if Qc_ltb width height then Ok (Some value, theight)
      else Ok (twidth, Some value)
    else Ok (twidth, theight) in
  Ok (margin, twidth, theight).

(** Lines 98-102 for the width and 103-107 for the height: the same
    statement on each axis, [dim] being the source dimension. *)
Definition without_margin (dim margin : Qc) (target : option Qc) : option Qc :=
  match nonzero target with
  | Some t =>
      if Qc_ltb t 0 then Some (- dim * t)
      else if Qc_ltb 0 t then Some (Qc_max0 (t - margin * Q2Qc 2))
      else target
  | None => target
  end.

(** Lines 109-116. *)
Definition default_size (width height : Qc) (twidth theight : option Qc)
  : result (Qc * Qc) :=
  let? '(twidth, theight) :=
    match nonzero twidth with
    | None =>
        match nonzero theight with
        | None => Ok (width, Some height)
        | Some th => let? q := fdiv th height in Ok (q * width, theight)
        end
    | Some tw => Ok (tw, theight)
    end in
  match nonzero theight with
  | None => let? q := fdiv twidth width in Ok (twidth, q * height)
  | Some th => Ok (twidth, th)
  end.

(** Lines 98-116 on both axes. *)
Definition content_box (width height margin : Qc) (twidth theight : option Qc)
  : result (Qc * Qc) :=
  let twidth := without_margin width margin twidth in
  let theight := without_margin height margin theight in
  default_size width height twidth theight.

(** Lines 77-116: [margin] and the final [twidth] and [theight]. *)
Definition target_size (options : Options) (width height : Qc)
  : result (Qc * Qc * Qc) :=
  (* read and convert size and margin values *)
  let? '(margin, twidth, theight) := target_options options width height in
  (* twidth and theight are image dimensions without margins *)
  let? '(twidth, theight) := content_box width height margin twidth theight in
  Ok (margin, twidth, theight).

(** Lines 121-132. *)
Record Layout : Type := mkLayout {
  page_width : Qc;
  page_height : Qc;
  offsetx : Qc;
  offsety : Qc;
  vb_margin : Qc
}.

Definition page_layout (viewbox : Viewbox) (margin twidth theight : Qc)
  : result Layout :=
  let offsetx := Q2Qc 0 in
  let offsety := Q2Qc 0 in
  let? target_ratio := fdiv twidth theight in
  let? source_ratio := fdiv (vb2 viewbox) (vb3 viewbox) in
  let? '(page_width, page_height, offsetx, offsety) :=
    if Qc_ltb source_ratio target_ratio then
      let? q := fdiv (vb3 viewbox) theight in
      let page_width := q * twidth in
      let offsetx := (page_width - vb2 viewbox) / Q2Qc 2 in
      let page_height := vb3 viewbox in
      Ok (page_width, page_height, offsetx, offsety)
    else
      let page_width := vb2 viewbox in
      let? q := fdiv (vb2 viewbox) twidth in
      let page_height := q * theight in
      let offsety := (page_height - vb3 viewbox) / Q2Qc 2 in
      Ok (page_width, page_height, offsetx, offsety) in
  let? q := fdiv page_width twidth in
  let vb_margin := q * margin in
  Ok (mkLayout page_width page_height offsetx offsety vb_margin).

(** The four numbers written to the viewBox attribute on line 133. *)
Definition new_viewbox (viewbox : Viewbox) (l : Layout) : Viewbox :=
  mkViewbox (vb0 viewbox - vb_margin l - offsetx l)
            (vb1 viewbox - vb_margin l - offsety l)
            (page_width l + vb_margin l * Q2Qc 2)
            (page_height l + vb_margin l * Q2Qc 2).

(** ** The engine on the document *)

(** A computation on the tree: it may mutate the tree and then return or
    raise; what was written before a raise stays written. *)
Definition M (A : Type) : Type := element -> element * result A.

Definition mret {A} (a : A) : M A := fun t => (t, Ok a).

Definition mbind {A B} (m : M A) (k : A -> M B) : M B :=
  fun t =>
    match m t with
    | (t', inr a) => k a t'
    | (t', inl e) => (t', inl e)
    end.

Notation "'do!' x ':=' m 'in' k" := (mbind m (fun x => k))
  (at level 10, x name, m at level 100, k at level 200).
Notation "'do!' ' p ':=' m 'in' k" := (mbind m (fun p => k))
  (at level 10, p strict pattern, m at level 100, k at level 200).
Notation "m ';;' k" := (mbind m (fun _ => k))
  (at level 100, k at level 200, right associativity).

(** A pure step that may raise. *)
Definition lift {A} (r : result A) : M A := fun t => (t, r).

(** [tree.getroot()]: the root is read where the engine parses it. *)
Definition getroot : M element := fun t => (t, Ok t).

(** [r.set(key, value)] *)
Definition elem_set (r : ref) (key value : string) : M unit :=
  fun t => (update_at r (set_attrib key value) t, Ok tt).

(** [etree.SubElement(parent, tag, nsmap=ns)]: appends an empty element to
    [parent] and returns the reference to it. *)
Definition SubElement (parent : ref) (name : string) (ns : gmap string string)
  : M ref :=
  fun t =>
    let n := match subtree parent t with
             | Some p => length (children p)
             | None => 0%nat
             end in
    (update_at parent (append_child (Element name ns ∅ [])) t,
     Ok (parent ++ [n])%list).

Section Engine.

(** ['{}'.format(x)] for a float [x]. *)
Variable format_float : Qc -> string.

Definition nsm : gmap string string :=
  <["inkscape" := "http://www.inkscape.org/namespaces/inkscape"]>
  (<["sodipodi" := "http://sodipodi.sourceforge.net/DTD/sodipodi-0.dtd"]> ∅).

Definition ns_inkscape : string := default "" (nsm !! "inkscape").
Definition ns_sodipodi : string := default "" (nsm !! "sodipodi").

(** ['{{{}}}name'.format(ns)] *)
Definition clark (ns name : string) : string := "{" +:+ ns +:+ "}" +:+ name.

(** The path data of line 145. *)
Definition frame_path (viewbox : Viewbox) (l : Layout) : string :=
  let bleed := Qc_min (page_width l) (page_height l) / Q2Qc 100 in
  let a0 := - vb0 viewbox - vb_margin l - offsetx l - bleed in
  let a1 := - vb1 viewbox - vb_margin l - offsety l - bleed in
  let a2 := page_width l + (vb_margin l + bleed) * Q2Qc 2 in
  let a3 := page_height l + (vb_margin l + bleed) * Q2Qc 2 in
  "M " +:+ format_float a0 +:+ " " +:+ format_float a1
  +:+ " v " +:+ format_float a3 +:+ " h " +:+ format_float a2
  +:+ " v -" +:+ format_float a3 +:+ " z"
  +:+ " M " +:+ format_float (vb0 viewbox) +:+ " " +:+ format_float (vb1 viewbox)
  +:+ " h " +:+ format_float (vb2 viewbox) +:+ " v " +:+ format_float (vb3 viewbox)
  +:+ " h -" +:+ format_float (vb2 viewbox) +:+ " z".

(** Lines 136-145. *)
Definition add_frame (svg : ref) (viewbox : Viewbox) (l : Layout) : M unit :=
  do! layer := SubElement svg "g" nsm in
  elem_set layer (clark ns_inkscape "groupmode") "layer" ;;
  elem_set layer (clark ns_inkscape "label") "Frame" ;;
  elem_set layer (clark ns_sodipodi "insensitive") "true" ;;
  do! frame := SubElement layer "path" ∅ in
  elem_set frame "style" "fill:#ffffff;stroke:none" ;;
  elem_set frame "d" (frame_path viewbox l).

(** The text of the viewBox attribute, line 133. *)
Definition format_viewbox (v : Viewbox) : string :=
  format_float (vb0 v) +:+ " " +:+ format_float (vb1 v) +:+ " "
  +:+ format_float (vb2 v) +:+ " " +:+ format_float (vb3 v).

Definition resize_svg (options : Options) : M unit :=
  let options := prepare_options options in
  let svg : ref := [] in
  do! root := getroot in
  do! '(width, height, viewbox) := lift (source_size root) in
  do! '(margin, twidth, theight) := lift (target_size options width height) in
  (* set svg width and height, update viewport for margin *)
  elem_set svg "width" (format_float (twidth + margin * Q2Qc 2) +:+ "px") ;;
  elem_set svg "height" (format_float (theight + margin * Q2Qc 2) +:+ "px") ;;
  do! l := lift (page_layout viewbox margin twidth theight) in
  elem_set svg "viewBox" (format_viewbox (new_viewbox viewbox l)) ;;
  (* add frame *)
  if truthy_flag (opt_frame options) then add_frame svg viewbox l
  else mret tt.

End Engine.


(** * The options dictionary and the stream wrapper *)

(** [prepare_options] and [process_stream] on the dictionary itself.  The
    engine above works on the record [Options]: [Dict.to_options] reads it
    from a dictionary. *)
Module Dict.

(** A value of the options dictionary. *)
Inductive value : Type :=
| PyNone
| PyStr (s : string)
| PyBool (b : bool).

(** [if key not in options: options[key] = v] *)
Definition set_default (key : string) (v : value) (options : gmap string value)
  : gmap string value :=
  match options !! key with
  | None => <[key := v]> options
  | Some _ => options
  end.

(** Lines 10-24. *)
Definition prepare_options (options : gmap string value) : gmap string value :=
  let options := set_default "width" PyNone options in
  let options := set_default "height" PyNone options in
  let options := set_default "longest" PyNone options in
  let options := set_default "shortest" PyNone options in
  let options := set_default "margin" (PyStr "0") options in
  let options := set_default "trim" (PyBool false) options in
  set_default "frame" (PyBool false) options.

(** The keys [prepare_options] provides. *)
Definition option_keys : list string :=
  ["width"; "height"; "longest"; "shortest"; "margin"; "trim"; "frame"].

(** A length option of the dictionary: a string, or [None] for an absent
    key and for the value [None]. *)
Definition get_str (options : gmap string value) (key : string) : option string :=
  match options !! key with
  | Some (PyStr s) => Some s
  | _ => None
  end.

Definition get_flag (options : gmap string value) (key : string) : option bool :=
  match options !! key with
  | Some (PyBool b) => Some b
  | _ => None
  end.

Definition to_options (options : gmap string value) : Options :=
  mkOptions (get_str options "width") (get_str options "height")
            (get_str options "longest") (get_str options "shortest")
            (get_str options "margin")
            (get_flag options "trim") (get_flag options "frame").

(** ['key' not in options or options['key'] is None or options['key'] == ''] *)
Definition unset (options : gmap string value) (key : string) : bool :=
  match options !! key with
  | None | Some PyNone | Some (PyStr EmptyString) => true
  | _ => false
  end.

(** Lines 148-151: the input and output of the stream. *)
Definition stream_options (options : gmap string value) : gmap string value :=
  let options :=
    if unset options "input" then <["input" := PyStr "-"]> options
    else options in
  if unset options "output"
  then <["output" := default PyNone (options !! "input")]> options
  else options.

End Dict.

(** What [process_stream] reads and writes: the standard input still to
    be read, the standard output written so far, and the files by path.
    Reading a path that is not there raises [IOError]; permissions and
    directories are not modelled. *)
Record World : Type := mkWorld {
  stdin : string;
  stdout : string;
  files : gmap string string
}.

Inductive stream_exn : Type :=
| IOError (path : string)
| XMLSyntaxError
| TypeError
| EngineError (e : exn).

Section Stream.

Variable format_float : Qc -> string.

(** The XML parser and serialiser of lxml: the tree of a text ([None] when
    the text is not well-formed), and the text [tree.write] produces. *)
Variable parse_xml : string -> option element.
Variable serialize : element -> string.

(** [etree.parse(sys.stdin if input == '-' else input)]: the text read and
    the world after the read, the standard input being read to its end. *)
Definition read_input (input : string) (w : World) : option (string * World) :=
  if String.eqb input "-"
  then Some (stdin w, mkWorld EmptyString (stdout w) (files w))
  else match files w !! input with
       | Some text => Some (text, w)
       | None => None
       end.

(** [tree.write(sys.stdout if output == '-' else output)] *)
Definition write_output (output text : string) (w : World) : World :=
  if String.eqb output "-"
  then mkWorld (stdin w) (stdout w +:+ text) (files w)
  else mkWorld (stdin w) (stdout w) (<[output := text]> (files w)).

(** Lines 147-155.  The options come from [argparse]; a value that is not
    a string where a path is needed raises [TypeError]. *)
Definition process_stream (options : gmap string Dict.value) (w : World)
  : World * (stream_exn + unit) :=
  let options := Dict.stream_options options in
  match options !! "input" with
  | Some (Dict.PyStr input) =>
      match read_input input w with
      | None => (w, inl (IOError input))
      | Some (text, w) =>
          match parse_xml text with
          | None => (w, inl XMLSyntaxError)
          | Some tree =>
              match resize_svg format_float (Dict.to_options options) tree with
              | (_, inl e) => (w, inl (EngineError e))
              | (tree, inr _) =>
                  match options !! "output" with
                  | Some (Dict.PyStr output) =>
                      (write_output output (serialize tree) w, inr tt)
                  | _ => (w, inl TypeError)
                  end
              end
          end
      end
  | _ => (w, inl TypeError)
  end.

End Stream.

(** * Vocabulary of the statements *)

Module ReSpec.
Import Re.

Fixpoint all_chars (p : ascii -> bool) (s : string) : bool :=
  match s with
  | EmptyString => true
  | String c s' => p c && all_chars p s'
  end.

(** [s] is empty or starts with a character that fails [p]. *)
Definition stops (p : ascii -> bool) (s : string) : Prop :=
  match s with
  | EmptyString => True
  | String c _ => p c = false
  end.

(** The texts of the grammar [-?\d+(\.\d+)?]: the whole of [lit] is an
    optional minus sign, digits, and optionally a point and digits. *)
Definition is_number (lit : string) : bool :=
  let s := match take_char "-" lit with Some t => t | None => lit end in
  let '(int_part, rest) := span is_digit s in
  negb (is_empty int_part)
  && (is_empty rest
      || match take_char "." rest with
         | Some t =>
             let '(ds, rest') := span is_digit t in
             negb (is_empty ds) && is_empty rest'
         | None => false
         end).

(** A suffix that cannot continue a number: it is empty or starts with a
    character that is neither a digit nor a point. *)
Definition ends_number (rest : string) : Prop :=
  match rest with
  | EmptyString => True
  | String c _ => is_digit c = false /\ c ≠ "."%char
  end.

End ReSpec.

(** What a size option contributes to the target box: its parsed value
    (default unit mm) when it is supplied, nothing when it is absent or
    empty. *)
Definition supplied (o : option string) : result (option Qc) :=
  if truthy_str o then let? v := parse_length o "mm" in Ok (Some v)
  else Ok None.

(** One rule of the ordered rule list: a supplied [later] value overwrites
    the [earlier] one on the axis it [applies] to. *)
Definition overwrite (later earlier : option Qc) (applies : bool) : option Qc :=
  match later with
  | Some _ => if applies then later else earlier
  | None => earlier
  end.

(** The document and options of the worked example:
    [width="100px" height="50px" viewBox="0 0 100 50"] and
    [{width: "210mm"}]. *)
Definition example_doc : element :=
  Element "svg" ∅
    (<["width" := "100px"]> (<["height" := "50px"]>
      (<["viewBox" := "0 0 100 50"]> ∅))) [].

Definition no_options : Options :=
  mkOptions None None None None None None None.

Definition example_options : Options :=
  mkOptions (Some "210mm") None None None None None None.

(** The layer that [add_frame] leaves at the end of the children of the
    root. *)
Definition frame_layer (format_float : Qc -> string)
    (viewbox : Viewbox) (l : Layout) : element :=
  Element "g" nsm
    (<[clark ns_sodipodi "insensitive" := "true"]>
      (<[clark ns_inkscape "label" := "Frame"]>
        (<[clark ns_inkscape "groupmode" := "layer"]> ∅)))
    [Element "path" ∅
       (<["d" := frame_path format_float viewbox l]>
         (<["style" := "fill:#ffffff;stroke:none"]> ∅))
       []].

(** The root after the writes of lines 119, 120 and 133. *)
Definition written (format_float : Qc -> string) (svg : element)
    (margin twidth theight : Qc) (viewbox : Viewbox) (l : Layout) : element :=
  set_attrib "viewBox" (format_viewbox format_float (new_viewbox viewbox l))
    (set_attrib "height" (format_float (theight + margin * Q2Qc 2) +:+ "px")
      (set_attrib "width" (format_float (twidth + margin * Q2Qc 2) +:+ "px")
        svg)).



(** A rendering of numbers for the examples: the fraction in lowest
    terms. *)
Definition show_fraction (q : Qc) : string :=
  pretty (Qnum (this q)) +:+ "/" +:+ pretty (Zpos (Qden (this q))).

(** Documents and options of the examples. *)
Definition svg_doc (attrs : gmap string string) : element :=
  Element "svg" ∅ attrs [].

(** No width attribute. *)
Definition doc_without_width : element :=
  svg_doc (<["height" := "50"]> ∅).



(** [width="100" height="50" viewBox="10 20 100 50"] *)
Definition doc_shifted_viewbox : element :=
  svg_doc (<["width" := "100"]> (<["height" := "50"]>
            (<["viewBox" := "10 20 100 50"]> ∅))).



(** [{width: "200", longest: "300", shortest: "400"}] *)
Definition three_rules : Options :=
  mkOptions (Some "200") None (Some "300") (Some "400") None None None.

(** [{frame: True}] *)
Definition frame_only : Options :=
  mkOptions None None None None None None (Some true).

(** The unit suffixes of the specification and their factors. *)
Definition supported_units : list string :=
  ["px"; "pt"; "pc"; "in"; "mm"; "cm"; "%"].

(** ** Further vocabulary *)


(** A number of the grammar without a sign. *)
Definition is_unsigned (lit : string) : bool :=
  ReSpec.is_number lit
  && match Re.take_char "-" lit with Some _ => false | None => true end.

(** [width="100%" height="100%" viewBox="0 0 200 100"] *)
Definition doc_percent_size : element :=
  svg_doc (<["width" := "100%"]> (<["height" := "100%"]>
            (<["viewBox" := "0 0 200 100"]> ∅))).

(** [width="100%" height="50"], no viewBox. *)
Definition doc_percent_no_viewbox : element :=
  svg_doc (<["width" := "100%"]> (<["height" := "50"]> ∅)).


(** An option given as the empty string, turned into an absent one. *)
Definition drop_empty (o : option string) : option string :=
  match o with
  | Some EmptyString => None
  | _ => o
  end.

Definition without_empty (options : Options) : Options :=
  mkOptions (drop_empty (opt_width options)) (drop_empty (opt_height options))
            (drop_empty (opt_longest options)) (drop_empty (opt_shortest options))
            (drop_empty (opt_margin options))
            (opt_trim options) (opt_frame options).



(** A document with an attribute and a child of its own:
    [<svg id="a" width="100" height="50"><rect/></svg>]. *)
Definition doc_with_child : element :=
  Element "svg" ∅
    (<["id" := "a"]> (<["width" := "100"]> (<["height" := "50"]> ∅)))
    [Element "rect" ∅ ∅ []].


(** A parser and a serialiser for the examples: every text is the worked
    example, every tree is written as its tag. *)
Definition parse_example (text : string) : option element := Some example_doc.
Definition serialize_tag (tree : element) : string := tag tree.

(** The world of the examples: the file [a.svg], nothing read or written. *)
Definition example_world : World :=
  mkWorld "<svg/>" EmptyString (<["a.svg" := "<svg/>"]> ∅).

(** [{input: "a.svg"}] and the empty dictionary. *)
Definition only_input : gmap string Dict.value :=
  <["input" := Dict.PyStr "a.svg"]> ∅.


(** [{input: "missing.svg"}] *)
Definition missing_input : gmap string Dict.value :=
  <["input" := Dict.PyStr "missing.svg"]> ∅.

(** A token of the viewBox splitter: no space, comma or tab in it. *)
Definition is_token (t : string) : bool :=
  ReSpec.all_chars (fun c => negb (Re.is_sep c)) t.

(** A separator of the viewBox splitter: a non-empty run of spaces, commas
    and tabs. *)
Definition is_separator (s : string) : bool :=
  ReSpec.all_chars Re.is_sep s && negb (Re.is_empty s).

(** [{width: "10px", height: "20px", longest: "300px", shortest: "400px"}] *)
Definition four_rules : Options :=
  mkOptions (Some "10px") (Some "20px") (Some "300px") (Some "400px")
            None None None.

(** * Properties *)

(** ** Numbers *)

Lemma Qc_ltb_spec (x y : Qc) : Qc_ltb x y = true <-> x < y.
Proof. unfold Qc_ltb. apply bool_decide_eq_true. Qed.

Lemma Qc_leb_spec (x y : Qc) : Qc_leb x y = true <-> x ≤ y.
Proof. unfold Qc_leb. apply bool_decide_eq_true. Qed.

Lemma Qc_eqb_spec (x y : Qc) : Qc_eqb x y = true <-> x = y.
Proof. unfold Qc_eqb. apply bool_decide_eq_true. Qed.

Lemma Qc_ltb_false (x y : Qc) : Qc_ltb x y = false <-> y ≤ x.
Proof.
  unfold Qc_ltb. rewrite bool_decide_eq_false. split.
  - apply Qcnot_lt_le.
  - apply Qcle_not_lt.
Qed.

Lemma Qc_leb_false (x y : Qc) : Qc_leb x y = false <-> y < x.
Proof.
  unfold Qc_leb. rewrite bool_decide_eq_false. split.
  - apply Qcnot_le_lt.
  - apply Qclt_not_le.
Qed.



Lemma Qc_lt_ne (x y : Qc) : x < y -> y ≠ x.
Proof. intros H ->. by apply Qclt_not_eq in H. Qed.

(** Two closed rationals are equal when their fractions are. *)
Ltac qc_closed := apply Qc_is_canon; vm_compute; reflexivity.

(** Equality of closed results of the engine, rationals compared by their
    fractions. *)
Ltac qc_struct :=
  lazymatch goal with
  | |- @eq Qc _ _ => apply Qc_is_canon; reflexivity
  | |- _ => first [reflexivity | f_equal; qc_struct]
  end.
Ltac qc_eval := vm_compute; qc_struct.

(** Two closed rationals differ when their fractions do. *)
Ltac qc_ne :=
  let H := fresh in
  intros H; apply (f_equal this) in H; vm_compute in H; discriminate H.

(** ** The regular expressions *)

Module ReFacts.
Import Re ReSpec.

Lemma span_app p a b :
  all_chars p a = true -> stops p b -> span p (a +:+ b) = (a, b).
Proof.
  induction a as [|c a IH]; simpl; intros Ha Hb.
  - destruct b as [|c b]; simpl in *; [done|]. by rewrite Hb.
  - apply andb_true_iff in Ha as [-> Ha]. by rewrite IH.
Qed.

Lemma span_inv p s a b :
  span p s = (a, b) -> s = a +:+ b /\ all_chars p a = true /\ stops p b.
Proof.
  revert a b. induction s as [|c s IH]; simpl; intros a b H.
  - by inversion H.
  - destruct (p c) eqn:Hc.
    + destruct (span p s) as [a' b'] eqn:Hs. inversion H; subst.
      destruct (IH a' b eq_refl) as (-> & Ha & Hb). simpl. by rewrite Hc.
    + inversion H; subst. simpl. by rewrite Hc.
Qed.

Lemma take_char_Some c s t : take_char c s = Some t -> s = String c t.
Proof.
  destruct s as [|c' s]; simpl; [done|].
  destruct (Ascii.eqb c' c) eqn:E; [|done].
  apply Ascii.eqb_eq in E. by intros [= ->]; subst.
Qed.

Lemma take_char_cons c t : take_char c (String c t) = Some t.
Proof. simpl. by rewrite Ascii.eqb_refl. Qed.

Lemma lstrip_stops s : stops is_space s -> lstrip s = s.
Proof. destruct s as [|c s]; simpl; [done|]. unfold lstrip. simpl. by intros ->. Qed.

Lemma is_space_not_digit c : is_digit c = true -> is_space c = false.
Proof.
  unfold is_digit, is_space. intros H.
  apply andb_true_iff in H as [H1 H2].
  apply Nat.leb_le in H1. apply Nat.leb_le in H2.
  apply orb_false_iff; split.
  - apply Nat.eqb_neq. lia.
  - apply andb_false_iff. right. apply Nat.leb_gt. lia.
Qed.

Lemma append_cons c a b : String c a +:+ b = String c (a +:+ b).
Proof. reflexivity. Qed.

Lemma append_nil_r s : s +:+ "" = s.
Proof. induction s as [|c s IH]; [done|]. by rewrite append_cons, IH. Qed.

Lemma append_assoc a b c : (a +:+ b) +:+ c = a +:+ (b +:+ c).
Proof. induction a as [|x a IH]; [done|]. by rewrite !append_cons, IH. Qed.

Lemma is_empty_true s : is_empty s = true -> s = "".
Proof. by destruct s. Qed.

Lemma all_chars_stops_space s :
  all_chars is_digit s = true -> is_empty s = false -> forall r, stops is_space (s +:+ r).
Proof.
  destruct s as [|c s]; simpl; [done|]. intros H _ r.
  apply andb_true_iff in H as [H _]. by apply is_space_not_digit.
Qed.

Lemma ends_number_stops rest : ends_number rest -> stops is_digit rest.
Proof. destruct rest; simpl; [done|]. by intros [? _]. Qed.

Lemma ends_number_no_point rest : ends_number rest -> take_char "." rest = None.
Proof.
  destruct rest as [|c r]; simpl; [done|]. intros [_ H].
  destruct (Ascii.eqb c ".") eqn:E; [|done]. by apply Ascii.eqb_eq in E.
Qed.

(** The pattern matches a number followed by such a suffix, whatever
    follows: group 1 is the number, group 2 the unit the suffix starts with
    after white space. *)
Lemma match_unsigned sign s rest :
  (let '(int_part, r) := span is_digit s in
   negb (is_empty int_part)
   && (is_empty r
       || match take_char "." r with
          | Some t =>
              let '(ds, rest') := span is_digit t in
              negb (is_empty ds) && is_empty rest'
          | None => false
          end)) = true ->
  ends_number rest ->
  match_digits sign (s +:+ rest)
  = Some (LengthMatch (sign +:+ s) (first_prefix unit_alternatives (lstrip rest)))
  /\ stops is_space (s +:+ rest).
Proof.
  intros Hn Hr. unfold match_digits.
  destruct (span is_digit s) as [ip r] eqn:Hs.
  apply span_inv in Hs as (-> & Hip & Hstop).
  apply andb_true_iff in Hn as [Hne Hn]. apply negb_true_iff in Hne.
  split; [|rewrite append_assoc; by apply all_chars_stops_space].
  rewrite append_assoc.
  apply orb_true_iff in Hn as [Hn|Hn].
  - apply is_empty_true in Hn as ->. simpl.
    rewrite span_app by auto using ends_number_stops.
    rewrite Hne, ends_number_no_point by done.
    by rewrite !append_nil_r.
  - destruct (take_char "." r) as [t|] eqn:Ht; [|done].
    apply take_char_Some in Ht as ->.
    destruct (span is_digit t) as [ds rest'] eqn:Hds.
    apply span_inv in Hds as (-> & Hd & _).
    apply andb_true_iff in Hn as [Hdne Hn]. apply negb_true_iff in Hdne.
    apply is_empty_true in Hn as ->. rewrite append_nil_r.
    rewrite span_app by done. rewrite Hne.
    change (String "." ds +:+ rest) with (String "." (ds +:+ rest)).
    rewrite take_char_cons, span_app by auto using ends_number_stops.
    by rewrite Hdne.
Qed.

(** The pattern matches a number followed by such a suffix, whatever
    follows: group 1 is the number, group 2 the unit the suffix starts with
    after white space. *)
Lemma match_length_number lit rest :
  is_number lit = true -> ends_number rest ->
  match_length (lit +:+ rest)
  = Some (LengthMatch lit (first_prefix unit_alternatives (lstrip rest))).
Proof.
  unfold is_number, match_length. intros Hn Hr.
  destruct (take_char "-" lit) as [t|] eqn:Hsign.
  - apply take_char_Some in Hsign as ->.
    change (String "-" t +:+ rest) with (String "-" (t +:+ rest)).
    rewrite lstrip_stops by done. rewrite take_char_cons.
    by destruct (match_unsigned "-" t rest Hn Hr) as [-> _].
  - destruct (match_unsigned "" lit rest Hn Hr) as [H Hsp].
    rewrite lstrip_stops by done.
    assert (take_char "-" (lit +:+ rest) = None) as ->; [|done].
    destruct lit as [|c lit]; [done|]. simpl in *.
    by destruct (Ascii.eqb c "-").
Qed.

End ReFacts.

(** ** The length parser *)

Section ParseLength.
Import Re ReSpec ReFacts.

Lemma match_length_empty : match_length "" = None.
Proof. reflexivity. Qed.

(** On a match, [parse_length] is the dispatch on the unit. *)
Lemma parse_length_matched value def_units parts :
  match_length value = Some parts ->
  parse_length (Some value) def_units =
    let num := float (group1 parts) in
    let units :=
      match group2 parts with
      | None | Some EmptyString => def_units
      | Some u => u
      end in
    if String.eqb units "px" then Ok num
    else if String.eqb units "pt" then Ok (num * Q2Qc 1.25)
    else if String.eqb units "pc" then Ok (num * Q2Qc 15.0)
    else if String.eqb units "in" then Ok (num * Q2Qc 90.0)
    else if String.eqb units "mm" then Ok (num * Q2Qc 3.543307)
    else if String.eqb units "cm" then Ok (num * Q2Qc 35.43307)
    else if String.eqb units "%" then Ok (- num / Q2Qc 100.0)
    else Raise (unknown_length_units units).
Proof.
  intros H. destruct value as [|c value]; [done|].
  unfold parse_length. by rewrite H.
Qed.


(** A number followed by a unit of the pattern. *)
Lemma parse_length_suffix lit u def_units :
  is_number lit = true -> u ∈ unit_alternatives ->
  parse_length (Some (lit +:+ u)) def_units = parse_length (Some (lit +:+ u)) u
  /\ match_length (lit +:+ u) = Some (LengthMatch lit (Some u)).
Proof.
  intros Hn Hu.
  assert (ends_number u /\ first_prefix unit_alternatives (lstrip u) = Some u
          /\ u ≠ "") as (He & Hp & Hne).
  { unfold unit_alternatives in Hu.
    repeat (apply elem_of_cons in Hu as [->|Hu]; [by repeat split|]).
    by apply elem_of_nil in Hu. }
  pose proof (match_length_number lit u Hn He) as Hm. rewrite Hp in Hm.
  split; [|done].
  rewrite !(parse_length_matched _ _ _ Hm). simpl.
  by destruct u.
Qed.

(** A number alone is read in the default unit. *)
Lemma parse_length_default lit :
  is_number lit = true ->
  match_length lit = Some (LengthMatch lit None).
Proof.
  intros Hn. pose proof (match_length_number lit "" Hn I) as Hm.
  by rewrite append_nil_r in Hm.
Qed.

(** C3. [parse_length] is linear in the number with the documented
    factors: a number [lit] of the grammar followed by px, pt, pc, in, mm,
    cm gives the number times 1, 1.25, 15, 90, 3.543307, 35.43307, followed
    by a percent sign it gives minus the hundredth of the number; without a
    suffix it is read in the default unit; ["50%"] gives -0.5, ["1in"] gives
    90, and the empty string and [None] give 0. *)
Theorem parse_length_linear (lit def_units : string) :
  is_number lit = true ->
  parse_length (Some (lit +:+ "px")) def_units = Ok (float lit)
  /\ parse_length (Some (lit +:+ "pt")) def_units = Ok (float lit * Q2Qc 1.25)
  /\ parse_length (Some (lit +:+ "pc")) def_units = Ok (float lit * Q2Qc 15.0)
  /\ parse_length (Some (lit +:+ "in")) def_units = Ok (float lit * Q2Qc 90.0)
  /\ parse_length (Some (lit +:+ "mm")) def_units = Ok (float lit * Q2Qc 3.543307)
  /\ parse_length (Some (lit +:+ "cm")) def_units = Ok (float lit * Q2Qc 35.43307)
  /\ parse_length (Some (lit +:+ "%")) def_units = Ok (- (float lit / Q2Qc 100))
  /\ (def_units ∈ supported_units ->
      parse_length (Some lit) def_units
      = parse_length (Some (lit +:+ def_units)) def_units)
  /\ parse_length (Some "50%") def_units = Ok (Q2Qc (-0.5))
  /\ parse_length (Some "1in") def_units = Ok (Q2Qc 90.0)
  /\ parse_length (Some "") def_units = Ok (Q2Qc 0.0)
  /\ parse_length None def_units = Ok (Q2Qc 0.0).
Proof.
  intros Hn.
  assert (forall u, u ∈ unit_alternatives ->
            parse_length (Some (lit +:+ u)) def_units
            = parse_length (Some (lit +:+ u)) u
            /\ match_length (lit +:+ u) = Some (LengthMatch lit (Some u))) as Hu
    by (intros u; by apply parse_length_suffix).
  assert (forall u, u ∈ unit_alternatives -> u ∈ unit_alternatives) as Hin by done.
  repeat split.
  1-7: match goal with
       | |- parse_length (Some (_ +:+ ?u)) _ = _ =>
           destruct (Hu u) as [_ Hm];
           [unfold unit_alternatives; rewrite !elem_of_cons; tauto|];
           rewrite (parse_length_matched _ _ _ Hm); simpl; try done
       end.
  - f_equal. replace (Q2Qc 100.0) with (Q2Qc 100) by qc_closed.
    unfold Qcdiv. ring.
  - intros Hd.
    assert (def_units ∈ unit_alternatives) as Hd'
      by (unfold supported_units, unit_alternatives in *;
          rewrite !elem_of_cons in *; tauto).
    destruct (Hu def_units Hd') as [_ Hm].
    rewrite (parse_length_matched _ _ _ Hm).
    rewrite (parse_length_matched _ _ _ (parse_length_default lit Hn)).
    simpl. unfold unit_alternatives in Hd'.
    repeat (apply elem_of_cons in Hd' as [->|Hd']; [done|]).
    by apply elem_of_nil in Hd'.
  - rewrite (parse_length_matched "50%" _ (LengthMatch "50" (Some "%")) eq_refl).
    simpl. f_equal. qc_closed.
  - rewrite (parse_length_matched "1in" _ (LengthMatch "1" (Some "in")) eq_refl).
    simpl. f_equal. qc_closed.
Qed.

Lemma parse_length_linear_witness :
  is_number "12.5" = true
  /\ parse_length (Some ("12.5" +:+ "cm")) "mm" = Ok (float "12.5" * Q2Qc 35.43307).
Proof.
  split; [reflexivity|].
  apply (parse_length_linear "12.5" "mm"). reflexivity.
Defined.

End ParseLength.

(** C8. The text ["10em"] carries a unit that is not supported, and
    [parse_length] returns a value for it: 10 in the default unit, the
    rest of the text being ignored. *)
Theorem parse_length_10em :
  parse_length (Some "10em") "px" = Ok (Q2Qc 10)
  /\ parse_length (Some "10em") "mm" = Ok (Q2Qc 35.43307).
Proof.
  split.
  - by rewrite (parse_length_matched "10em" _ (Re.LengthMatch "10" None) eq_refl).
  - rewrite (parse_length_matched "10em" _ (Re.LengthMatch "10" None) eq_refl).
    simpl. f_equal. qc_closed.
Qed.

(** ** Target options *)

Lemma supplied_case (o : option string) (v : option Qc) :
  supplied o = Ok v ->
  (truthy_str o = false /\ v = None)
  \/ (exists x, truthy_str o = true /\ parse_length o "mm" = Ok x /\ v = Some x).
Proof.
  unfold supplied. destruct (truthy_str o); [|intros [= <-]; by left].
  destruct (parse_length o "mm") as [e|x] eqn:E; simpl; [done|].
  intros [= <-]. right. eauto.
Qed.

(** C4. The target box is resolved from the options in the order
    width/height, longest, shortest, each supplied rule overwriting the axis
    it targets: longest the axis of the larger source dimension, shortest
    that of the smaller one; when longest and shortest target the same axis
    the value of shortest is kept. *)
Theorem option_precedence (options : Options) (width height m : Qc)
    (w h l s : option Qc) :
  parse_length (opt_margin options) "mm" = Ok m ->
  supplied (opt_width options) = Ok w ->
  supplied (opt_height options) = Ok h ->
  supplied (opt_longest options) = Ok l ->
  supplied (opt_shortest options) = Ok s ->
  target_options options width height
  = Ok (m,
        overwrite s (overwrite l w (Qc_ltb height width)) (Qc_ltb width height),
        overwrite s (overwrite l h (negb (Qc_ltb height width)))
                  (negb (Qc_ltb width height)))
  /\ (forall lv sv tw th,
        l = Some lv -> s = Some sv -> width = height ->
        target_options options width height = Ok (m, tw, th) ->
        tw = w /\ th = Some sv).
Proof.
  intros Hm Hw Hh Hl Hs.
  assert (target_options options width height
          = Ok (m,
                overwrite s (overwrite l w (Qc_ltb height width)) (Qc_ltb width height),
                overwrite s (overwrite l h (negb (Qc_ltb height width)))
                          (negb (Qc_ltb width height)))) as Heq.
  { unfold target_options. rewrite Hm. simpl.
    apply supplied_case in Hw as [[-> ->]|(x & -> & -> & ->)];
    apply supplied_case in Hh as [[-> ->]|(y & -> & -> & ->)];
    apply supplied_case in Hl as [[-> ->]|(z & -> & -> & ->)];
    apply supplied_case in Hs as [[-> ->]|(u & -> & -> & ->)];
    simpl;
    destruct (Qc_ltb height width), (Qc_ltb width height); reflexivity. }
  split; [done|].
  intros lv sv tw th -> -> ->. rewrite Heq. intros [= <- <-].
  assert (Qc_ltb height height = false) as ->
    by (apply Qc_ltb_false, Qcle_refl).
  done.
Qed.

(** ** Steps 7 and 8 *)


Lemma nonzero_zero : nonzero (Some 0) = None.
Proof. reflexivity. Qed.


Lemma nonzero_None (v : option Qc) :
  nonzero v = None -> v = None \/ v = Some 0.
Proof.
  destruct v as [x|]; simpl; [|by left].
  destruct (Qc_eqb x 0) eqn:E; [|done]. apply Qc_eqb_spec in E as ->. by right.
Qed.









Lemma without_margin_zero (dim margin : Qc) :
  without_margin dim margin (Some 0) = Some 0.
Proof. reflexivity. Qed.












(** ** The source size *)

Lemma rbind_Ok {A B} (r : result A) (k : A -> result B) (b : B) :
  rbind r k = Ok b -> exists a, r = Ok a /\ k a = Ok b.
Proof. destruct r as [e|a]; simpl; [done|]. eauto. Qed.

Lemma read_viewbox_positive (svg : element) (vb : Viewbox) :
  read_viewbox svg = Ok (Some vb) -> 0 < vb2 vb * vb3 vb.
Proof.
  unfold read_viewbox.
  destruct (Re.split _) as [|t0 [|t1 [|t2 [|t3 [|]]]]]; try done.
  intros H.
  apply rbind_Ok in H as (v0 & _ & H). apply rbind_Ok in H as (v1 & _ & H).
  apply rbind_Ok in H as (v2 & _ & H). apply rbind_Ok in H as (v3 & _ & H).
  destruct (Qc_leb (v2 * v3) (Q2Qc 0.0)) eqn:E; [done|].
  injection H as <-. simpl. by apply Qc_leb_false in E.
Qed.

Lemma Qcmult_pos_ne_0 (x y : Qc) : 0 < x * y -> x ≠ 0 /\ y ≠ 0.
Proof.
  intros H. split; intros ->.
  - rewrite Qcmult_0_l in H. by apply Qclt_not_eq in H.
  - rewrite Qcmult_0_r in H. by apply Qclt_not_eq in H.
Qed.

(** What [source_size] returns: the declared size when both are positive,
    the size of the viewBox otherwise; the declared viewBox when it is
    usable, [[0, 0, width, height]] otherwise. *)
Lemma source_size_inv (svg : element) (width height : Qc) (viewbox : Viewbox) :
  source_size svg = Ok (width, height, viewbox) ->
  exists w0 h0 ovb,
    parse_length (attrib svg !! "width") "px" = Ok w0
    /\ parse_length (attrib svg !! "height") "px" = Ok h0
    /\ read_viewbox svg = Ok ovb
    /\ ((0 < w0 /\ 0 < h0 /\ width = w0 /\ height = h0)
        \/ ((w0 ≤ 0 \/ h0 ≤ 0)
            /\ ovb = Some viewbox /\ width = vb2 viewbox /\ height = vb3 viewbox))
    /\ viewbox = default (mkViewbox 0 0 width height) ovb.
Proof.
  unfold source_size. destruct (_ || _); [done|]. intros H.
  apply rbind_Ok in H as (w0 & Hw & H). apply rbind_Ok in H as (h0 & Hh & H).
  apply rbind_Ok in H as (ovb & Hv & H). apply rbind_Ok in H as ([w h] & Hs & H).
  injection H as <- <- <-. exists w0, h0, ovb. split_and!; try done.
  destruct (Qc_leb w0 0) eqn:Ew; simpl in Hs.
  - right. destruct ovb as [vb|]; [|done]. injection Hs as <- <-.
    apply Qc_leb_spec in Ew. auto.
  - destruct (Qc_leb h0 0) eqn:Eh.
    + right. destruct ovb as [vb|]; [|done]. injection Hs as <- <-.
      apply Qc_leb_spec in Eh. auto.
    + left. injection Hs as <- <-.
      apply Qc_leb_false in Ew. by apply Qc_leb_false in Eh.
Qed.

(** The source size and the sides of the viewBox are never zero. *)
Lemma source_size_nonzero (svg : element) (width height : Qc) (viewbox : Viewbox) :
  source_size svg = Ok (width, height, viewbox) ->
  width ≠ 0 /\ height ≠ 0 /\ 0 < vb2 viewbox * vb3 viewbox.
Proof.
  intros H. apply source_size_inv in H
    as (w0 & h0 & ovb & _ & _ & Hv & Hs & Hvb).
  destruct Hs as [(Hw & Hh & -> & ->)|(_ & -> & -> & ->)].
  - split_and!; [by apply Qc_lt_ne| by apply Qc_lt_ne|].
    destruct ovb as [vb|]; simpl in Hvb; subst viewbox.
    + by apply read_viewbox_positive in Hv.
    + simpl. by apply Qcmult_pos_pos.
  - apply read_viewbox_positive in Hv.
    destruct (Qcmult_pos_ne_0 _ _ Hv). done.
Qed.

(** ** Placement *)




Lemma fdiv_raise (x y : Qc) (e : exn) :
  fdiv x y = Raise e -> e = ZeroDivisionError.
Proof. unfold fdiv. destruct (Qc_eqb y 0); [|done]. by intros [= <-]. Qed.

(** The placement raises nothing but a division by zero. *)
Lemma page_layout_raise (viewbox : Viewbox) (margin twidth theight : Qc) (e : exn) :
  page_layout viewbox margin twidth theight = Raise e -> e = ZeroDivisionError.
Proof.
  unfold page_layout.
  destruct (fdiv twidth theight) as [e1|r1] eqn:E1; simpl;
    [intros [= <-]; by apply fdiv_raise in E1|].
  destruct (fdiv (vb2 viewbox) (vb3 viewbox)) as [e2|r2] eqn:E2; simpl;
    [intros [= <-]; by apply fdiv_raise in E2|].
  destruct (Qc_ltb r2 r1).
  - destruct (fdiv (vb3 viewbox) theight) as [e3|r3] eqn:E3; simpl;
      [intros [= <-]; by apply fdiv_raise in E3|].
    destruct (fdiv _ twidth) as [e4|r4] eqn:E4; simpl;
      [intros [= <-]; by apply fdiv_raise in E4|done].
  - destruct (fdiv (vb2 viewbox) twidth) as [e3|r3] eqn:E3; simpl;
      [intros [= <-]; by apply fdiv_raise in E3|].
    destruct (fdiv _ twidth) as [e4|r4] eqn:E4; simpl;
      [intros [= <-]; by apply fdiv_raise in E4|done].
Qed.


(** ** The engine on the document *)

Section EngineFacts.

Variable format_float : Qc -> string.

Lemma alter_last {A} (f : A -> A) (l : list A) (x : A) :
  alter f (length l) (l ++ [x])%list = (l ++ [f x])%list.
Proof. induction l as [|y l IH]; simpl; [done|]. by f_equal. Qed.

Lemma update_at_last (r : ref) (f : element -> element) (c e : element) :
  update_at (length (children e) :: r) f (append_child c e)
  = append_child (update_at r f c) e.
Proof. destruct e. unfold append_child. simpl. by rewrite alter_last. Qed.

Lemma subtree_last (c e : element) :
  subtree [length (children e)] (append_child c e) = Some c.
Proof.
  destruct e as [t ns a cs]. simpl.
  by rewrite lookup_app_r, Nat.sub_diag by lia.
Qed.

Lemma SubElement_root (name : string) (ns : gmap string string) (t : element) :
  SubElement [] name ns t
  = (append_child (Element name ns ∅ []) t, Ok [length (children t)]).
Proof. reflexivity. Qed.

Lemma SubElement_last (name : string) (ns : gmap string string) (c e : element) :
  SubElement [length (children e)] name ns (append_child c e)
  = (append_child (append_child (Element name ns ∅ []) c) e,
     Ok [length (children e); length (children c)]).
Proof.
  unfold SubElement. by rewrite subtree_last, update_at_last.
Qed.

Lemma elem_set_last (r : ref) (key value : string) (c e : element) :
  elem_set (length (children e) :: r) key value (append_child c e)
  = (append_child (update_at r (set_attrib key value) c) e, Ok tt).
Proof. unfold elem_set. by rewrite update_at_last. Qed.

Lemma add_frame_run (viewbox : Viewbox) (l : Layout) (svg : element) :
  add_frame format_float [] viewbox l svg
  = (append_child (frame_layer format_float viewbox l) svg, Ok tt).
Proof.
  unfold add_frame, mbind.
  rewrite SubElement_root. cbn [Ok].
  rewrite elem_set_last. cbn [Ok].
  rewrite elem_set_last. cbn [Ok].
  rewrite elem_set_last. cbn [Ok].
  rewrite SubElement_last. cbn [Ok].
  rewrite elem_set_last. cbn [Ok].
  rewrite elem_set_last.
  reflexivity.
Qed.

(** A successful run: the three attributes are written and, with the frame
    option, the frame layer is appended. *)
Lemma resize_svg_run (options : Options) (svg : element)
    (width height margin twidth theight : Qc) (viewbox : Viewbox) (l : Layout) :
  source_size svg = Ok (width, height, viewbox) ->
  target_size (prepare_options options) width height = Ok (margin, twidth, theight) ->
  page_layout viewbox margin twidth theight = Ok l ->
  resize_svg format_float options svg
  = (let w := written format_float svg margin twidth theight viewbox l in
     if truthy_flag (opt_frame (prepare_options options))
     then append_child (frame_layer format_float viewbox l) w
     else w,
     Ok tt).
Proof.
  intros Hs Ht Hl. unfold resize_svg, mbind, lift, getroot, elem_set.
  cbn [Ok]. rewrite Hs. cbn [Ok]. rewrite Ht. cbn [Ok update_at]. rewrite Hl.
  cbn [Ok]. destruct (truthy_flag _).
  - by rewrite add_frame_run.
  - reflexivity.
Qed.

(** A raise while the source is read or the target computed leaves the
    document as it was. *)
Lemma resize_svg_raise_source (options : Options) (svg : element) (e : exn) :
  source_size svg = Raise e ->
  resize_svg format_float options svg = (svg, Raise e).
Proof.
  intros Hs. unfold resize_svg, mbind, lift, getroot. cbn [Ok]. by rewrite Hs.
Qed.

Lemma resize_svg_raise_target (options : Options) (svg : element)
    (width height : Qc) (viewbox : Viewbox) (e : exn) :
  source_size svg = Ok (width, height, viewbox) ->
  target_size (prepare_options options) width height = Raise e ->
  resize_svg format_float options svg = (svg, Raise e).
Proof.
  intros Hs Ht. unfold resize_svg, mbind, lift, getroot.
  cbn [Ok]. rewrite Hs. cbn [Ok]. by rewrite Ht.
Qed.

Lemma resize_svg_raise_layout (options : Options) (svg : element)
    (width height margin twidth theight : Qc) (viewbox : Viewbox) (e : exn) :
  source_size svg = Ok (width, height, viewbox) ->
  target_size (prepare_options options) width height = Ok (margin, twidth, theight) ->
  page_layout viewbox margin twidth theight = Raise e ->
  snd (resize_svg format_float options svg) = Raise e.
Proof.
  intros Hs Ht Hl. unfold resize_svg, mbind, lift, getroot, elem_set.
  cbn [Ok]. rewrite Hs. cbn [Ok]. rewrite Ht. cbn [Ok update_at]. by rewrite Hl.
Qed.


(** The attributes and children of the root after a successful run. *)
Lemma attrib_append_child (c e : element) :
  attrib (append_child c e) = attrib e.
Proof. reflexivity. Qed.

Lemma written_attrib (svg : element) (margin twidth theight : Qc)
    (viewbox : Viewbox) (l : Layout) :
  let w := written format_float svg margin twidth theight viewbox l in
  attrib w !! "width" = Some (format_float (twidth + margin * Q2Qc 2) +:+ "px")
  /\ attrib w !! "height" = Some (format_float (theight + margin * Q2Qc 2) +:+ "px")
  /\ attrib w !! "viewBox"
     = Some (format_viewbox format_float (new_viewbox viewbox l))
  /\ children w = children svg.
Proof.
  unfold written, set_attrib. cbn [attrib children]. split_and!.
  - by rewrite lookup_insert_ne, lookup_insert_ne, lookup_insert_eq.
  - by rewrite lookup_insert_ne, lookup_insert_eq.
  - by rewrite lookup_insert_eq.
  - done.
Qed.

Lemma resize_svg_attrib (options : Options) (svg : element)
    (width height margin twidth theight : Qc) (viewbox : Viewbox) (l : Layout) :
  source_size svg = Ok (width, height, viewbox) ->
  target_size (prepare_options options) width height = Ok (margin, twidth, theight) ->
  page_layout viewbox margin twidth theight = Ok l ->
  exists svg',
    resize_svg format_float options svg = (svg', Ok tt)
    /\ attrib svg' !! "width"
       = Some (format_float (twidth + margin * Q2Qc 2) +:+ "px")
    /\ attrib svg' !! "height"
       = Some (format_float (theight + margin * Q2Qc 2) +:+ "px")
    /\ attrib svg' !! "viewBox"
       = Some (format_viewbox format_float (new_viewbox viewbox l))
    /\ children svg'
       = (children svg
          ++ if truthy_flag (opt_frame (prepare_options options))
             then [frame_layer format_float viewbox l] else [])%list.
Proof.
  intros Hs Ht Hl. eexists. split; [by eapply resize_svg_run|].
  destruct (written_attrib svg margin twidth theight viewbox l)
    as (Hw & Hh & Hv & Hc).
  cbv zeta. destruct (truthy_flag _).
  - rewrite attrib_append_child. split_and!; try done.
    all: unfold append_child; cbn [children]; by rewrite Hc.
  - split_and!; try done. all: by rewrite app_nil_r.
Qed.

(** A successful run went through the three blocks. *)
Lemma resize_svg_Ok_inv (options : Options) (svg svg' : element) :
  resize_svg format_float options svg = (svg', Ok tt) ->
  exists width height viewbox margin twidth theight l,
    source_size svg = Ok (width, height, viewbox)
    /\ target_size (prepare_options options) width height
       = Ok (margin, twidth, theight)
    /\ page_layout viewbox margin twidth theight = Ok l.
Proof.
  intros H.
  destruct (source_size svg) as [e|[[w h] vb]] eqn:Hs.
  { rewrite (resize_svg_raise_source _ _ _ Hs) in H. done. }
  destruct (target_size (prepare_options options) w h) as [e|[[m tw] th]] eqn:Ht.
  { rewrite (resize_svg_raise_target _ _ _ _ _ _ Hs Ht) in H. done. }
  destruct (page_layout vb m tw th) as [e|l] eqn:Hl.
  { pose proof (resize_svg_raise_layout _ _ _ _ _ _ _ _ _ Hs Ht Hl) as Hr.
    rewrite H in Hr. done. }
  by exists w, h, vb, m, tw, th, l.
Qed.

(** C9. When the engine raises one of its own errors (missing or invalid
    dimensions, a length that does not parse), the document is left as it
    was: the raise comes from reading the source or from resolving the
    target, both before the first attribute is written. *)
Theorem resize_atomic (options : Options) (svg svg' : element) (msg : string) :
  resize_svg format_float options svg = (svg', Raise (Exception msg)) ->
  svg' = svg
  /\ (source_size svg = Raise (Exception msg)
      \/ exists width height viewbox,
           source_size svg = Ok (width, height, viewbox)
           /\ target_size (prepare_options options) width height
              = Raise (Exception msg)).
Proof.
  intros H.
  destruct (source_size svg) as [e|[[w h] vb]] eqn:Hs.
  { rewrite (resize_svg_raise_source _ _ _ Hs) in H.
    injection H as <- ->. auto. }
  destruct (target_size (prepare_options options) w h) as [e|[[m tw] th]] eqn:Ht.
  { rewrite (resize_svg_raise_target _ _ _ _ _ _ Hs Ht) in H.
    injection H as <- ->. split; [done|]. right. by exists w, h, vb. }
  destruct (page_layout vb m tw th) as [e|l] eqn:Hl.
  - pose proof (resize_svg_raise_layout _ _ _ _ _ _ _ _ _ Hs Ht Hl) as Hr.
    rewrite H in Hr. simpl in Hr. injection Hr as <-.
    by apply page_layout_raise in Hl.
  - rewrite (resize_svg_run _ _ _ _ _ _ _ _ _ Hs Ht Hl) in H. done.
Qed.

End EngineFacts.

Lemma resize_atomic_witness :
  resize_svg show_fraction no_options doc_without_width
  = (doc_without_width, Raise missing_dimensions)
  /\ doc_without_width = doc_without_width.
Proof.
  assert (resize_svg show_fraction no_options doc_without_width
          = (doc_without_width, Raise missing_dimensions)) as H
    by (vm_compute; reflexivity).
  split; [exact H|].
  exact (proj1 (resize_atomic show_fraction no_options doc_without_width
                  doc_without_width _ H)).
Defined.

(** ** Placement and the written viewBox *)



Section Placement.

Variable format_float : Qc -> string.


End Placement.



(** ** The margin *)




Section Margin.

Variable format_float : Qc -> string.


End Margin.



(** ** Identity *)

Section Identity.

Variable format_float : Qc -> string.



End Identity.



Lemma option_precedence_witness :
  parse_length (opt_margin three_rules) "mm" = Ok (Q2Qc 0.0)
  /\ supplied (opt_width three_rules) = Ok (Some (Q2Qc 708.6614))
  /\ supplied (opt_height three_rules) = Ok None
  /\ supplied (opt_longest three_rules) = Ok (Some (Q2Qc 1062.9921))
  /\ supplied (opt_shortest three_rules) = Ok (Some (Q2Qc 1417.3228))
  /\ target_options three_rules (Q2Qc 100) (Q2Qc 50)
     = Ok (Q2Qc 0.0, Some (Q2Qc 1062.9921), Some (Q2Qc 1417.3228)).
Proof.
  assert (supplied (opt_width three_rules) = Ok (Some (Q2Qc 708.6614)))
    as H1 by qc_eval.
  assert (supplied (opt_longest three_rules) = Ok (Some (Q2Qc 1062.9921)))
    as H2 by qc_eval.
  assert (supplied (opt_shortest three_rules) = Ok (Some (Q2Qc 1417.3228)))
    as H3 by qc_eval.
  split_and!; try done.
  exact (proj1 (option_precedence three_rules (Q2Qc 100) (Q2Qc 50) (Q2Qc 0.0)
                  _ None _ _ eq_refl H1 eq_refl H2 H3)).
Defined.

(** ** The frame *)

(** C7 at [width="100" height="50" viewBox="10 20 100 50"] with the frame
    option: one layer holding one path is appended and the new viewBox is
    [10 20 100 50], with a bleed of 0.5; the inner rectangle of the path is
    the old viewBox, and its outer rectangle starts at (-10.5, -20.5), the
    viewBox origin being negated, not at (9.5, 19.5). *)
Theorem frame_outer_corner (format_float : Qc -> string) :
  exists svg' l,
    resize_svg format_float frame_only doc_shifted_viewbox = (svg', Ok tt)
    /\ children svg'
       = [frame_layer format_float
            (mkViewbox (Q2Qc 10) (Q2Qc 20) (Q2Qc 100) (Q2Qc 50)) l]
    /\ new_viewbox (mkViewbox (Q2Qc 10) (Q2Qc 20) (Q2Qc 100) (Q2Qc 50)) l
       = mkViewbox (Q2Qc 10) (Q2Qc 20) (Q2Qc 100) (Q2Qc 50)
    /\ Qc_min (page_width l) (page_height l) / Q2Qc 100 = Q2Qc 0.5
    /\ frame_path format_float
         (mkViewbox (Q2Qc 10) (Q2Qc 20) (Q2Qc 100) (Q2Qc 50)) l
       = "M " +:+ format_float (Q2Qc (-10.5)) +:+ " "
         +:+ format_float (Q2Qc (-20.5))
         +:+ " v " +:+ format_float (Q2Qc 51) +:+ " h " +:+ format_float (Q2Qc 101)
         +:+ " v -" +:+ format_float (Q2Qc 51) +:+ " z"
         +:+ " M " +:+ format_float (Q2Qc 10) +:+ " " +:+ format_float (Q2Qc 20)
         +:+ " h " +:+ format_float (Q2Qc 100) +:+ " v " +:+ format_float (Q2Qc 50)
         +:+ " h -" +:+ format_float (Q2Qc 100) +:+ " z".
Proof.
  set (vb := mkViewbox (Q2Qc 10) (Q2Qc 20) (Q2Qc 100) (Q2Qc 50)).
  set (l := mkLayout (Q2Qc 100) (Q2Qc 50) 0 0 0).
  assert (source_size doc_shifted_viewbox = Ok (Q2Qc 100, Q2Qc 50, vb)) as Hs
    by qc_eval.
  assert (target_size (prepare_options frame_only) (Q2Qc 100) (Q2Qc 50)
          = Ok (0, Q2Qc 100, Q2Qc 50)) as Ht by qc_eval.
  assert (page_layout vb 0 (Q2Qc 100) (Q2Qc 50) = Ok l) as Hl by qc_eval.
  destruct (resize_svg_attrib format_float _ _ _ _ _ _ _ _ _ Hs Ht Hl)
    as (svg' & Hr & _ & _ & _ & Hc).
  exists svg', l. split_and!.
  - exact Hr.
  - exact Hc.
  - qc_eval.
  - qc_closed.
  - unfold frame_path.
    repeat (f_equal; try qc_closed).
Qed.

(** * Further properties *)

(** ** The length parser: errors and what is ignored *)

Section ParseLengthMore.
Import Re ReSpec ReFacts.





(** On a supported unit the dispatch of [parse_length] returns a value. *)
Lemma dispatch_supported (num : Qc) (units : string) :
  units ∈ supported_units ->
  exists x,
    (if String.eqb units "px" then Ok num
     else if String.eqb units "pt" then Ok (num * Q2Qc 1.25)
     else if String.eqb units "pc" then Ok (num * Q2Qc 15.0)
     else if String.eqb units "in" then Ok (num * Q2Qc 90.0)
     else if String.eqb units "mm" then Ok (num * Q2Qc 3.543307)
     else if String.eqb units "cm" then Ok (num * Q2Qc 35.43307)
     else if String.eqb units "%" then Ok (- num / Q2Qc 100.0)
     else Raise (unknown_length_units units)) = Ok x.
Proof.
  unfold supported_units. intros H.
  repeat (apply elem_of_cons in H as [->|H]; [by eexists|]).
  by apply elem_of_nil in H.
Qed.

Lemma unit_alternatives_supported (u : string) :
  u ∈ unit_alternatives -> u ∈ supported_units /\ u ≠ "".
Proof.
  unfold unit_alternatives, supported_units. intros H.
  repeat (apply elem_of_cons in H as [->|H];
          [split; [rewrite !elem_of_cons; tauto|done]|]).
  by apply elem_of_nil in H.
Qed.



Lemma lstrip_app (ws s : string) :
  all_chars is_space ws = true -> stops is_space s -> lstrip (ws +:+ s) = s.
Proof. intros Hw Hs. unfold lstrip. by rewrite span_app. Qed.

Lemma match_length_lstrip (ws s : string) :
  all_chars is_space ws = true -> stops is_space s ->
  match_length (ws +:+ s) = match_length s.
Proof.
  intros Hw Hs. unfold match_length.
  by rewrite lstrip_app, (lstrip_stops s) by done.
Qed.

Lemma is_space_ends_number (c : ascii) (s : string) :
  is_space c = true -> ends_number (String c s).
Proof.
  intros H. simpl. split.
  - destruct (is_digit c) eqn:E; [|done].
    apply is_space_not_digit in E. congruence.
  - intros ->. by vm_compute in H.
Qed.

Lemma is_number_stops_space (lit rest : string) :
  is_number lit = true -> stops is_space (lit +:+ rest).
Proof.
  unfold is_number. intros H.
  destruct (take_char "-" lit) as [t|] eqn:Hs.
  - apply take_char_Some in Hs as ->. done.
  - destruct (span is_digit lit) as [ip r] eqn:Hspan.
    apply span_inv in Hspan as (-> & Hip & _).
    apply andb_true_iff in H as [Hne _]. apply negb_true_iff in Hne.
    rewrite append_assoc. by apply all_chars_stops_space.
Qed.

(** What follows the number: white space, a unit of the pattern, anything. *)
Lemma unit_tail (ws u junk : string) :
  all_chars is_space ws = true -> u ∈ unit_alternatives ->
  ends_number (ws +:+ u +:+ junk)
  /\ first_prefix unit_alternatives (lstrip (ws +:+ u +:+ junk)) = Some u.
Proof.
  intros Hw Hu.
  assert (ends_number (u +:+ junk) /\ stops is_space (u +:+ junk)
          /\ first_prefix unit_alternatives (u +:+ junk) = Some u)
    as (He & Hst & Hp).
  { unfold unit_alternatives in Hu.
    repeat (apply elem_of_cons in Hu as [->|Hu]; [by destruct junk; cbv|]).
    by apply elem_of_nil in Hu. }
  rewrite lstrip_app by done. split; [|done].
  destruct ws as [|c ws]; [done|].
  rewrite append_cons. apply is_space_ends_number.
  simpl in Hw. by apply andb_true_iff in Hw as [? _].
Qed.

(** X2. White space before the number, white space between the number and
    the unit, and any text after the unit are ignored. *)
Theorem parse_length_ignores (ws1 lit ws2 u junk def_units : string) :
  all_chars is_space ws1 = true -> is_number lit = true ->
  all_chars is_space ws2 = true -> u ∈ unit_alternatives ->
  parse_length (Some (ws1 +:+ lit +:+ ws2 +:+ u +:+ junk)) def_units
  = parse_length (Some (lit +:+ u)) def_units.
Proof.
  intros Hw1 Hn Hw2 Hu.
  destruct (unit_tail ws2 u junk Hw2 Hu) as [He Hp].
  pose proof (match_length_number lit _ Hn He) as Hm. rewrite Hp in Hm.
  rewrite <- (match_length_lstrip ws1) in Hm
    by first [done | by apply is_number_stops_space].
  destruct (parse_length_suffix lit u def_units Hn Hu) as [_ Hm'].
  by rewrite (parse_length_matched _ _ _ Hm), (parse_length_matched _ _ _ Hm').
Qed.

Lemma parse_length_ignores_witness :
  all_chars is_space "  " = true /\ is_number "12.5" = true
  /\ all_chars is_space " " = true /\ "mm" ∈ unit_alternatives
  /\ parse_length (Some ("  " +:+ "12.5" +:+ " " +:+ "mm" +:+ " wide")) "px"
     = parse_length (Some ("12.5" +:+ "mm")) "px".
Proof.
  assert ("mm" ∈ unit_alternatives) as Hu
    by (unfold unit_alternatives; rewrite !elem_of_cons; tauto).
  refine (conj eq_refl (conj eq_refl (conj eq_refl (conj Hu _)))).
  exact (parse_length_ignores "  " "12.5" " " "mm" " wide" "px"
           eq_refl eq_refl eq_refl Hu).
Defined.

Lemma float_minus (d : string) :
  take_char "-" d = None -> float (String "-" d) = - float d.
Proof.
  intros H. unfold float. rewrite take_char_cons, H.
  by destruct (span is_digit d).
Qed.

(** X3. A minus sign before the number gives the opposite length, in every
    unit (for a percentage, the opposite scale). *)
Theorem parse_length_minus (d u def_units : string) :
  is_unsigned d = true -> u ∈ unit_alternatives ->
  exists x,
    parse_length (Some (d +:+ u)) def_units = Ok x
    /\ parse_length (Some (String "-" d +:+ u)) def_units = Ok (- x).
Proof.
  unfold is_unsigned. intros Hd Hu.
  apply andb_true_iff in Hd as [Hn Hs].
  destruct (take_char "-" d) eqn:Hsign; [done|].
  assert (is_number (String "-" d) = true) as Hn'.
  { unfold is_number in *. rewrite take_char_cons. by rewrite Hsign in Hn. }
  destruct (parse_length_suffix d u def_units Hn Hu) as [_ Hm].
  destruct (parse_length_suffix _ u def_units Hn' Hu) as [_ Hm'].
  rewrite (parse_length_matched _ _ _ Hm), (parse_length_matched _ _ _ Hm').
  cbn [group1 group2]. rewrite float_minus by done.
  unfold unit_alternatives in Hu.
  repeat (apply elem_of_cons in Hu as [->|Hu];
          [eexists; split; [reflexivity|]; simpl; f_equal;
           unfold Qcdiv; ring|]).
  by apply elem_of_nil in Hu.
Qed.

Lemma parse_length_minus_witness :
  is_unsigned "12.5" = true /\ "cm" ∈ unit_alternatives
  /\ exists x,
       parse_length (Some ("12.5" +:+ "cm")) "px" = Ok x
       /\ parse_length (Some (String "-" "12.5" +:+ "cm")) "px" = Ok (- x).
Proof.
  assert ("cm" ∈ unit_alternatives) as Hu
    by (unfold unit_alternatives; rewrite !elem_of_cons; tauto).
  refine (conj eq_refl (conj Hu _)).
  exact (parse_length_minus "12.5" "cm" "px" eq_refl Hu).
Defined.

(** X4. The unit error is raised only through the default unit: a number
    without a unit read with a default unit that is not supported raises
    it, naming that unit, while a unit in the text makes the default
    irrelevant. *)
Theorem parse_length_unit_error (lit def_units : string) :
  is_number lit = true -> def_units ∉ supported_units ->
  parse_length (Some lit) def_units = Raise (unknown_length_units def_units)
  /\ (forall u, u ∈ unit_alternatives ->
        exists x, parse_length (Some (lit +:+ u)) def_units = Ok x).
Proof.
  intros Hn Hd. split.
  - rewrite (parse_length_matched _ _ _ (parse_length_default lit Hn)).
    cbn [group1 group2].
    unfold supported_units in Hd. rewrite !elem_of_cons in Hd.
    repeat match goal with
    | |- context [String.eqb def_units ?u] =>
        destruct (String.eqb_spec def_units u) as [->|_]; [tauto|]
    end.
    done.
  - intros u Hu. destruct (parse_length_suffix lit u def_units Hn Hu) as [_ Hm].
    rewrite (parse_length_matched _ _ _ Hm). cbn [group1 group2].
    destruct (unit_alternatives_supported u Hu) as [Hs Hu0].
    destruct u as [|c u]; [done|]. by apply dispatch_supported.
Qed.

Lemma parse_length_unit_error_witness :
  is_number "10" = true /\ ("em" ∉ supported_units)
  /\ parse_length (Some "10") "em" = Raise (unknown_length_units "em").
Proof.
  assert ("em" ∉ supported_units) as Hd.
  { unfold supported_units. rewrite !elem_of_cons, elem_of_nil.
    intros H. repeat destruct H as [H|H]; first [discriminate H | exact H]. }
  refine (conj eq_refl (conj Hd _)).
  exact (proj1 (parse_length_unit_error "10" "em" eq_refl Hd)).
Defined.

End ParseLengthMore.

(** ** The source size: errors and fallback *)

Section SourceMore.

Variable format_float : Qc -> string.




(** X5. A root without a width attribute or without a height attribute
    makes the engine raise the missing-dimensions error, whatever the
    viewBox and the options are, and the document is left as it was. *)
Theorem resize_missing_dimensions (options : Options) (svg : element) :
  attrib svg !! "width" = None \/ attrib svg !! "height" = None ->
  resize_svg format_float options svg = (svg, Raise missing_dimensions).
Proof.
  intros H. apply resize_svg_raise_source. unfold source_size.
  destruct H as [-> | ->]; [done|].
  by destruct (attrib svg !! "width").
Qed.

(** X6. When the declared width or height is not positive (zero, negative
    or a percentage) and there is no usable viewBox, the engine raises the
    invalid-dimensions error and leaves the document as it was. *)
Theorem resize_invalid_dimensions (options : Options) (svg : element)
    (w0 h0 : Qc) :
  is_Some (attrib svg !! "width") -> is_Some (attrib svg !! "height") ->
  parse_length (attrib svg !! "width") "px" = Ok w0 ->
  parse_length (attrib svg !! "height") "px" = Ok h0 ->
  w0 ≤ 0 \/ h0 ≤ 0 ->
  read_viewbox svg = Ok None ->
  resize_svg format_float options svg = (svg, Raise invalid_dimensions).
Proof.
  intros Hiw Hih Hw Hh Hle Hv. apply resize_svg_raise_source.
  unfold source_size. rewrite !bool_decide_eq_true_2 by done. cbn [negb orb].
  rewrite Hw, Hh, Hv. cbn [rbind Ok].
  destruct Hle as [Hle|Hle].
  - by apply Qc_leb_spec in Hle as ->.
  - apply Qc_leb_spec in Hle as ->. by rewrite orb_true_r.
Qed.

(** X7. The source size is the declared size when both sides are positive,
    and the size of the viewBox when one is not and the viewBox is usable;
    the source viewBox is the declared one when it is usable and
    [[0, 0, width, height]] otherwise. *)
Theorem source_size_cases (svg : element) (w0 h0 : Qc) (ovb : option Viewbox) :
  is_Some (attrib svg !! "width") -> is_Some (attrib svg !! "height") ->
  parse_length (attrib svg !! "width") "px" = Ok w0 ->
  parse_length (attrib svg !! "height") "px" = Ok h0 ->
  read_viewbox svg = Ok ovb ->
  (0 < w0 -> 0 < h0 ->
   source_size svg = Ok (w0, h0, default (mkViewbox 0 0 w0 h0) ovb))
  /\ (w0 ≤ 0 \/ h0 ≤ 0 ->
      forall vb, ovb = Some vb -> source_size svg = Ok (vb2 vb, vb3 vb, vb)).
Proof.
  intros Hiw Hih Hw Hh Hv. unfold source_size.
  rewrite !bool_decide_eq_true_2 by done. cbn [negb orb].
  rewrite Hw, Hh, Hv. cbn [rbind Ok]. split.
  - intros Hpw Hph.
    assert (Qc_leb w0 0 = false) as -> by (by apply Qc_leb_false).
    assert (Qc_leb h0 0 = false) as -> by (by apply Qc_leb_false).
    by destruct ovb.
  - intros Hle vb ->.
    assert (Qc_leb w0 0 || Qc_leb h0 0 = true) as ->; [|done].
    destruct Hle as [Hle|Hle]; apply Qc_leb_spec in Hle as ->;
      [done|by rewrite orb_true_r].
Qed.

(** X8. Whenever the source is read, the source width and height have a
    positive product, and so have the width and height of the source
    viewBox: no side is zero and the two sides have the same sign. *)
Theorem source_size_positive_area (svg : element) (width height : Qc)
    (viewbox : Viewbox) :
  source_size svg = Ok (width, height, viewbox) ->
  0 < width * height /\ 0 < vb2 viewbox * vb3 viewbox.
Proof.
  intros H. pose proof (source_size_nonzero _ _ _ _ H) as (_ & _ & Hv).
  split; [|done].
  apply source_size_inv in H as (w0 & h0 & ovb & _ & _ & Hr & Hs & Hvb).
  destruct Hs as [(Hw & Hh & -> & ->)|(_ & -> & -> & ->)].
  - by apply Qcmult_pos_pos.
  - done.
Qed.

End SourceMore.

Lemma resize_missing_dimensions_witness :
  (attrib doc_without_width !! "width" = None
   \/ attrib doc_without_width !! "height" = None)
  /\ resize_svg show_fraction example_options doc_without_width
     = (doc_without_width, Raise missing_dimensions).
Proof.
  assert (attrib doc_without_width !! "width" = None
          \/ attrib doc_without_width !! "height" = None) as H
    by (left; reflexivity).
  refine (conj H _).
  exact (resize_missing_dimensions show_fraction example_options
           doc_without_width H).
Defined.

Lemma resize_invalid_dimensions_witness :
  is_Some (attrib doc_percent_no_viewbox !! "width")
  /\ is_Some (attrib doc_percent_no_viewbox !! "height")
  /\ parse_length (attrib doc_percent_no_viewbox !! "width") "px" = Ok (Q2Qc (-1))
  /\ parse_length (attrib doc_percent_no_viewbox !! "height") "px" = Ok (Q2Qc 50)
  /\ (Q2Qc (-1) ≤ 0 \/ Q2Qc 50 ≤ 0)
  /\ read_viewbox doc_percent_no_viewbox = Ok None
  /\ resize_svg show_fraction no_options doc_percent_no_viewbox
     = (doc_percent_no_viewbox, Raise invalid_dimensions).
Proof.
  assert (is_Some (attrib doc_percent_no_viewbox !! "width")) as H1
    by (by eexists).
  assert (is_Some (attrib doc_percent_no_viewbox !! "height")) as H2
    by (by eexists).
  assert (parse_length (attrib doc_percent_no_viewbox !! "width") "px"
          = Ok (Q2Qc (-1))) as H3 by qc_eval.
  assert (parse_length (attrib doc_percent_no_viewbox !! "height") "px"
          = Ok (Q2Qc 50)) as H4 by qc_eval.
  assert (Q2Qc (-1) ≤ 0 \/ Q2Qc 50 ≤ 0) as H5 by (left; by vm_compute).
  assert (read_viewbox doc_percent_no_viewbox = Ok None) as H6 by reflexivity.
  refine (conj H1 (conj H2 (conj H3 (conj H4 (conj H5 (conj H6 _)))))).
  exact (resize_invalid_dimensions show_fraction no_options
           doc_percent_no_viewbox _ _ H1 H2 H3 H4 H5 H6).
Defined.

Lemma source_size_cases_witness :
  is_Some (attrib doc_percent_size !! "width")
  /\ is_Some (attrib doc_percent_size !! "height")
  /\ parse_length (attrib doc_percent_size !! "width") "px" = Ok (Q2Qc (-1))
  /\ parse_length (attrib doc_percent_size !! "height") "px" = Ok (Q2Qc (-1))
  /\ read_viewbox doc_percent_size
     = Ok (Some (mkViewbox 0 0 (Q2Qc 200) (Q2Qc 100)))
  /\ (Q2Qc (-1) ≤ 0 \/ Q2Qc (-1) ≤ 0)
  /\ source_size doc_percent_size
     = Ok (Q2Qc 200, Q2Qc 100, mkViewbox 0 0 (Q2Qc 200) (Q2Qc 100)).
Proof.
  assert (is_Some (attrib doc_percent_size !! "width")) as H1 by (by eexists).
  assert (is_Some (attrib doc_percent_size !! "height")) as H2 by (by eexists).
  assert (parse_length (attrib doc_percent_size !! "width") "px"
          = Ok (Q2Qc (-1))) as H3 by qc_eval.
  assert (parse_length (attrib doc_percent_size !! "height") "px"
          = Ok (Q2Qc (-1))) as H4 by qc_eval.
  assert (read_viewbox doc_percent_size
          = Ok (Some (mkViewbox 0 0 (Q2Qc 200) (Q2Qc 100)))) as H5 by qc_eval.
  assert (Q2Qc (-1) ≤ 0 \/ Q2Qc (-1) ≤ 0) as H6 by (left; by vm_compute).
  refine (conj H1 (conj H2 (conj H3 (conj H4 (conj H5 (conj H6 _)))))).
  exact (proj2 (source_size_cases doc_percent_size _ _ _ H1 H2 H3 H4 H5)
           H6 _ eq_refl).
Defined.

Lemma source_size_positive_area_witness :
  source_size example_doc
  = Ok (Q2Qc 100, Q2Qc 50, mkViewbox 0 0 (Q2Qc 100) (Q2Qc 50))
  /\ 0 < Q2Qc 100 * Q2Qc 50.
Proof.
  assert (source_size example_doc
          = Ok (Q2Qc 100, Q2Qc 50, mkViewbox 0 0 (Q2Qc 100) (Q2Qc 50))) as H
    by qc_eval.
  refine (conj H _).
  exact (proj1 (source_size_positive_area example_doc _ _ _ H)).
Defined.

(** ** The errors of the engine *)

Section Errors.

Variable format_float : Qc -> string.









End Errors.


(** ** The target box: empty options, percentages, absolute sizes *)

Section TargetMore.

Variable format_float : Qc -> string.

(** The engine depends on the options through the target size and the
    frame flag. *)
Lemma resize_svg_ext (o1 o2 : Options) (svg : element) :
  (forall width height,
     target_size (prepare_options o1) width height
     = target_size (prepare_options o2) width height) ->
  truthy_flag (opt_frame (prepare_options o1))
  = truthy_flag (opt_frame (prepare_options o2)) ->
  resize_svg format_float o1 svg = resize_svg format_float o2 svg.
Proof.
  intros Ht Hf. unfold resize_svg, mbind, lift, getroot. cbn [Ok].
  destruct (source_size svg) as [e|[[w h] vb]]; [done|].
  rewrite Ht. destruct (target_size (prepare_options o2) w h) as [e|[[m tw] th]];
    [done|].
  by rewrite Hf.
Qed.

Lemma truthy_drop_empty (o : option string) :
  truthy_str (drop_empty o) = truthy_str o
  /\ (truthy_str o = true -> drop_empty o = o).
Proof. by destruct o as [[|c s]|]. Qed.

Lemma margin_drop_empty (o : option string) :
  parse_length (opt_margin (prepare_options
     (mkOptions None None None None (drop_empty o) None None))) "mm"
  = parse_length (opt_margin (prepare_options
     (mkOptions None None None None o None None))) "mm".
Proof.
  destruct o as [[|c s]|]; try reflexivity.
  simpl. unfold Ok. f_equal. qc_closed.
Qed.

(** X11. An option given as the empty string is an absent option: turning
    every empty width, height, longest, shortest and margin into [None]
    changes nothing in what the engine does. *)
Theorem empty_option_is_absent (options : Options) (svg : element) :
  resize_svg format_float (without_empty options) svg
  = resize_svg format_float options svg.
Proof.
  apply resize_svg_ext; [|done].
  intros width height. unfold target_size. f_equal.
  unfold target_options.
  change (opt_margin (prepare_options (without_empty options)))
    with (opt_margin (prepare_options
            (mkOptions None None None None
               (drop_empty (opt_margin options)) None None))).
  change (opt_margin (prepare_options options))
    with (opt_margin (prepare_options
            (mkOptions None None None None (opt_margin options) None None))).
  rewrite margin_drop_empty. cbn [prepare_options without_empty opt_width
    opt_height opt_longest opt_shortest].
  destruct (truthy_drop_empty (opt_width options)) as [-> Hw].
  destruct (truthy_drop_empty (opt_height options)) as [-> Hh].
  destruct (truthy_drop_empty (opt_longest options)) as [-> Hl].
  destruct (truthy_drop_empty (opt_shortest options)) as [-> Hs].
  destruct (truthy_str (opt_width options)); [rewrite Hw by done|];
  (destruct (truthy_str (opt_height options)); [rewrite Hh by done|]);
  (destruct (truthy_str (opt_longest options)); [rewrite Hl by done|]);
  (destruct (truthy_str (opt_shortest options)); [rewrite Hs by done|]);
  reflexivity.
Qed.



End TargetMore.



(** ** Placement: scale, centring, containment *)













(** ** What the engine leaves alone, and the frame *)

Section FrameMore.

Variable format_float : Qc -> string.

(** X17. A successful run touches nothing but the width, height and
    viewBox attributes of the root and the end of its children: the tag,
    the namespace map and every other attribute are kept, and the existing
    children stay in place, followed by at most one new element, none
    without the frame option. *)
Theorem resize_leaves_rest (options : Options) (svg svg' : element) :
  resize_svg format_float options svg = (svg', Ok tt) ->
  tag svg' = tag svg /\ nsmap svg' = nsmap svg
  /\ (forall key, key ≠ "width" -> key ≠ "height" -> key ≠ "viewBox" ->
        attrib svg' !! key = attrib svg !! key)
  /\ exists added,
       children svg' = (children svg ++ added)%list
       /\ (length added ≤ 1)%nat
       /\ (truthy_flag (opt_frame (prepare_options options)) = false ->
           added = []).
Proof.
  intros H.
  destruct (resize_svg_Ok_inv _ _ _ _ H)
    as (w & h & vb & m & tw & th & l & Hs & Ht & Hl).
  rewrite (resize_svg_run _ _ _ _ _ _ _ _ _ _ Hs Ht Hl) in H.
  injection H as <-. cbv zeta.
  assert (forall e, tag (written format_float e m tw th vb l) = tag e
            /\ nsmap (written format_float e m tw th vb l) = nsmap e
            /\ (forall key, key ≠ "width" -> key ≠ "height" -> key ≠ "viewBox" ->
                  attrib (written format_float e m tw th vb l) !! key
                  = attrib e !! key)
            /\ children (written format_float e m tw th vb l) = children e)
    as Hwr.
  { intros e. unfold written, set_attrib. cbn [tag nsmap attrib children].
    split_and!; try done. intros key H1 H2 H3.
    by rewrite !lookup_insert_ne. }
  destruct (Hwr svg) as (Htag & Hns & Hat & Hch).
  destruct (truthy_flag _).
  - split_and!; try done.
    exists [frame_layer format_float vb l]. split_and!; [|done|done].
    unfold append_child. cbn [children]. by rewrite Hch.
  - split_and!; try done. exists []. split_and!; [|simpl; lia|done].
    by rewrite app_nil_r.
Qed.



End FrameMore.

Lemma resize_leaves_rest_witness :
  resize_svg show_fraction no_options doc_with_child
  = (fst (resize_svg show_fraction no_options doc_with_child), Ok tt)
  /\ attrib (fst (resize_svg show_fraction no_options doc_with_child)) !! "id"
     = attrib doc_with_child !! "id".
Proof.
  assert (resize_svg show_fraction no_options doc_with_child
          = (fst (resize_svg show_fraction no_options doc_with_child), Ok tt))
    as H by (vm_compute; reflexivity).
  refine (conj H _).
  destruct (resize_leaves_rest show_fraction no_options doc_with_child _ H)
    as (_ & _ & Ha & _).
  by apply Ha.
Defined.



(** ** The options dictionary *)

Module DictFacts.
Import Dict.

(** Closes a goal whose hypotheses on the membership of a key among the
    option keys contradict each other. *)
Ltac keys_absurd :=
  exfalso; unfold option_keys in *;
  repeat match goal with
  | H : _ ∈ _ |- _ => rewrite ?elem_of_cons, ?elem_of_nil in H
  | H : ¬ (_ ∈ _) |- _ => rewrite ?elem_of_cons, ?elem_of_nil in H
  | H : _ ∉ _ |- _ => rewrite ?elem_of_cons, ?elem_of_nil in H
  end;
  intuition congruence.

Lemma lookup_set_default (key key' : string) (v : value)
    (options : gmap string value) :
  set_default key v options !! key'
  = match options !! key' with
    | Some x => Some x
    | None => if decide (key = key') then Some v else None
    end.
Proof.
  unfold set_default. destruct (options !! key) as [x|] eqn:E.
  - destruct (options !! key') eqn:E'; [done|].
    destruct (decide (key = key')) as [->|]; [congruence|done].
  - rewrite lookup_insert. destruct (decide (key = key')) as [->|].
    + by rewrite E.
    + by destruct (options !! key').
Qed.

Lemma set_default_bound (key : string) (v : value) (options : gmap string value) :
  is_Some (options !! key) -> set_default key v options = options.
Proof. intros [x Hx]. unfold set_default. by rewrite Hx. Qed.

Lemma lookup_prepare (key : string) (options : gmap string value) :
  prepare_options options !! key
  = match options !! key with
    | Some x => Some x
    | None =>
        if decide (key = "margin") then Some (PyStr "0")
        else if decide (key = "trim") then Some (PyBool false)
        else if decide (key = "frame") then Some (PyBool false)
        else if decide (key ∈ option_keys) then Some PyNone
        else None
    end.
Proof.
  unfold prepare_options. cbv zeta. rewrite !lookup_set_default.
  destruct (options !! key); [done|].
  repeat (case_decide; subst; try done).
  all: keys_absurd.
Qed.

(** X20. [prepare_options] only adds: afterwards each of the seven option
    keys is bound, a key that was bound keeps its value, an absent margin
    is ["0"], absent flags are [False], the other absent options are
    [None], no other key is touched, and preparing twice is preparing
    once. *)
Theorem prepare_options_adds (options : gmap string value) :
  (forall key, key ∈ option_keys -> is_Some (prepare_options options !! key))
  /\ (forall key x, options !! key = Some x ->
        prepare_options options !! key = Some x)
  /\ (options !! "margin" = None ->
      prepare_options options !! "margin" = Some (PyStr "0"))
  /\ (forall key, key = "trim" \/ key = "frame" -> options !! key = None ->
        prepare_options options !! key = Some (PyBool false))
  /\ (forall key, key ∈ ["width"; "height"; "longest"; "shortest"] ->
        options !! key = None -> prepare_options options !! key = Some PyNone)
  /\ (forall key, key ∉ option_keys ->
        prepare_options options !! key = options !! key)
  /\ prepare_options (prepare_options options) = prepare_options options.
Proof.
  assert (forall key, key ∈ option_keys ->
            is_Some (prepare_options options !! key)) as Hbound.
  { intros key Hk. rewrite lookup_prepare.
    destruct (options !! key); [done|].
    repeat (case_decide; try done). }
  split_and!.
  - exact Hbound.
  - intros key x Hx. by rewrite lookup_prepare, Hx.
  - intros H. by rewrite lookup_prepare, H.
  - intros key [-> | ->] H; by rewrite lookup_prepare, H.
  - intros key Hk H. rewrite lookup_prepare, H.
    rewrite !elem_of_cons, elem_of_nil in Hk.
    destruct Hk as [->|[->|[->|[->|[]]]]]; done.
  - intros key Hk. rewrite lookup_prepare.
    destruct (options !! key); [done|].
    repeat (case_decide; subst; try done).
    all: keys_absurd.
  - apply map_eq. intros key. rewrite (lookup_prepare key (prepare_options _)).
    destruct (prepare_options options !! key) as [x|] eqn:E; [done|].
    assert (key ∉ option_keys) as Hk.
    { intros Hk. destruct (Hbound key Hk) as [x Hx]. congruence. }
    repeat (case_decide; subst; try done).
    all: keys_absurd.
Qed.

Lemma get_str_prepare (key : string) (options : gmap string value) :
  key ≠ "margin" ->
  get_str (prepare_options options) key = get_str options key.
Proof.
  intros Hk. unfold get_str. rewrite lookup_prepare.
  destruct (options !! key); [done|].
  repeat (case_decide; subst; try done).
Qed.

End DictFacts.

(** X21. The record the engine works on can be read from the dictionary
    before or after the dictionary is prepared: once prepared as a record,
    it is the same. *)
Theorem prepare_options_record (options : gmap string Dict.value) :
  prepare_options (Dict.to_options (Dict.prepare_options options))
  = prepare_options (Dict.to_options options).
Proof.
  unfold prepare_options, Dict.to_options. cbn [opt_width opt_height
    opt_longest opt_shortest opt_margin opt_trim opt_frame].
  rewrite !DictFacts.get_str_prepare by done.
  unfold Dict.get_str, Dict.get_flag. rewrite !DictFacts.lookup_prepare.
  destruct (options !! "margin") as [[|m|b]|];
    destruct (options !! "trim") as [[|t|b']|];
    destruct (options !! "frame") as [[|f|b'']|]; reflexivity.
Qed.

(** ** The stream wrapper *)

Section StreamFacts.

Variable format_float : Qc -> string.
Variable parse_xml : string -> option element.
Variable serialize : element -> string.

Lemma to_options_insert (key : string) (v : Dict.value)
    (options : gmap string Dict.value) :
  key ∉ Dict.option_keys ->
  Dict.to_options (<[key := v]> options) = Dict.to_options options.
Proof.
  intros Hk. unfold Dict.to_options, Dict.get_str, Dict.get_flag.
  rewrite !lookup_insert_ne; [done|..];
    intros ->; apply Hk; unfold Dict.option_keys; rewrite !elem_of_cons; tauto.
Qed.

Lemma input_not_option : "input" ∉ Dict.option_keys.
Proof.
  unfold Dict.option_keys. rewrite !elem_of_cons, elem_of_nil.
  intros H. repeat destruct H as [H|H]; first [discriminate H | exact H].
Qed.

Lemma output_not_option : "output" ∉ Dict.option_keys.
Proof.
  unfold Dict.option_keys. rewrite !elem_of_cons, elem_of_nil.
  intros H. repeat destruct H as [H|H]; first [discriminate H | exact H].
Qed.

(** The engine does not see the input and the output. *)
Lemma to_options_stream (options : gmap string Dict.value) :
  Dict.to_options (Dict.stream_options options) = Dict.to_options options.
Proof.
  unfold Dict.stream_options.
  destruct (Dict.unset options "input");
    match goal with
    | |- context [Dict.unset ?o "output"] => destruct (Dict.unset o "output")
    end;
    rewrite ?to_options_insert by (apply input_not_option || apply output_not_option);
    done.
Qed.

Lemma read_input_unchanged (input text : string) (w w' : World) :
  read_input input w = Some (text, w') ->
  files w' = files w /\ stdout w' = stdout w.
Proof.
  unfold read_input. destruct (String.eqb input "-").
  - by intros [= <- <-].
  - destruct (files w !! input); [|done]. by intros [= <- <-].
Qed.

(** X22. Nothing is written unless everything succeeded: when
    [process_stream] raises, whatever the error (a missing input file, a
    text that is not XML, an error of the engine), no file has changed and
    nothing has been written to the standard output. *)
Theorem process_stream_error_writes_nothing
    (options : gmap string Dict.value) (w w' : World) (e : stream_exn) :
  process_stream format_float parse_xml serialize options w = (w', inl e) ->
  files w' = files w /\ stdout w' = stdout w.
Proof.
  unfold process_stream. cbv zeta.
  destruct (Dict.stream_options options !! "input") as [[|input|b]|];
    try (by intros [= <- _]).
  destruct (read_input input w) as [[text w1]|] eqn:Hr;
    [|by intros [= <- _]].
  apply read_input_unchanged in Hr.
  destruct (parse_xml text) as [tree|]; [|by intros [= <- _]].
  destruct (resize_svg format_float _ tree) as [tree' [err|[]]];
    [by intros [= <- _]|].
  destruct (Dict.stream_options options !! "output") as [[|output|b]|];
    by intros [= <- _].
Qed.

(** X23. Without an output the input file is rewritten in place: when the
    output is absent, [None] or empty and the input is the path of a file
    holding a document on which the engine succeeds, that file receives
    the resized document, and the other files, the standard input and the
    standard output are left alone. *)
Theorem process_stream_in_place (options : gmap string Dict.value) (w : World)
    (path text : string) (tree tree' : element) :
  options !! "input" = Some (Dict.PyStr path) ->
  path ≠ "" -> path ≠ "-" ->
  Dict.unset options "output" = true ->
  files w !! path = Some text ->
  parse_xml text = Some tree ->
  resize_svg format_float (Dict.to_options options) tree = (tree', Ok tt) ->
  process_stream format_float parse_xml serialize options w
  = (mkWorld (stdin w) (stdout w) (<[path := serialize tree']> (files w)),
     inr tt).
Proof.
  intros Hi Hne Hdash Ho Hf Hp Hr. unfold process_stream. cbv zeta.
  rewrite to_options_stream.
  assert (Dict.stream_options options
          = <["output" := Dict.PyStr path]> options) as ->.
  { unfold Dict.stream_options.
    assert (Dict.unset options "input" = false) as ->.
    { unfold Dict.unset. rewrite Hi. by destruct path. }
    by rewrite Ho, Hi. }
  rewrite lookup_insert_ne by done. rewrite Hi.
  unfold read_input.
  assert (String.eqb path "-" = false) as Hd by (by apply String.eqb_neq).
  rewrite Hd, Hf, Hp, Hr. rewrite lookup_insert_eq.
  unfold write_output. by rewrite Hd.
Qed.


End StreamFacts.

Lemma process_stream_error_writes_nothing_witness :
  process_stream show_fraction parse_example serialize_tag missing_input
    example_world
  = (example_world, inl (IOError "missing.svg"))
  /\ files example_world = files example_world.
Proof.
  assert (process_stream show_fraction parse_example serialize_tag
            missing_input example_world
          = (example_world, inl (IOError "missing.svg"))) as H
    by (vm_compute; reflexivity).
  refine (conj H _).
  exact (proj1 (process_stream_error_writes_nothing show_fraction parse_example
                  serialize_tag missing_input example_world _ _ H)).
Defined.

Lemma process_stream_in_place_witness :
  only_input !! "input" = Some (Dict.PyStr "a.svg")
  /\ "a.svg" ≠ "" /\ "a.svg" ≠ "-"
  /\ Dict.unset only_input "output" = true
  /\ files example_world !! "a.svg" = Some "<svg/>"
  /\ parse_example "<svg/>" = Some example_doc
  /\ resize_svg show_fraction (Dict.to_options only_input) example_doc
     = (fst (resize_svg show_fraction no_options example_doc), Ok tt)
  /\ fst (process_stream show_fraction parse_example serialize_tag only_input
            example_world)
     = mkWorld "<svg/>" "" (<["a.svg" := "svg"]> (files example_world)).
Proof.
  assert (only_input !! "input" = Some (Dict.PyStr "a.svg")) as H1
    by reflexivity.
  assert ("a.svg" ≠ "") as H2 by discriminate.
  assert ("a.svg" ≠ "-") as H3 by discriminate.
  assert (files example_world !! "a.svg" = Some "<svg/>") as H5 by reflexivity.
  assert (resize_svg show_fraction (Dict.to_options only_input) example_doc
          = (fst (resize_svg show_fraction no_options example_doc), Ok tt))
    as H7 by (vm_compute; reflexivity).
  refine (conj H1 (conj H2 (conj H3 (conj eq_refl (conj H5 (conj eq_refl _)))))).
  refine (conj H7 _).
  exact (f_equal fst
           (process_stream_in_place show_fraction parse_example serialize_tag
              only_input example_world "a.svg" "<svg/>" example_doc _
              H1 H2 H3 eq_refl H5 eq_refl H7)).
Defined.


(** ** The viewBox splitter *)

Section Split.
Import Re ReSpec ReFacts.

Lemma split_go_token (acc t rest : string) :
  is_token t = true ->
  split_go false acc (t +:+ rest) = split_go false (acc +:+ t) rest.
Proof.
  revert acc. induction t as [|c t IH]; intros acc Ht.
  - by rewrite append_nil_r.
  - simpl in Ht. apply andb_true_iff in Ht as [Hc Ht].
    apply negb_true_iff in Hc.
    rewrite append_cons. cbn [split_go]. rewrite Hc, IH by done.
    by rewrite append_assoc.
Qed.

Lemma split_go_skip (s rest : string) :
  all_chars is_sep s = true -> stops is_sep rest ->
  split_go true "" (s +:+ rest) = split_go false "" rest.
Proof.
  induction s as [|c s IH]; intros Hs Hr.
  - destruct rest as [|c rest]; [done|]. simpl in Hr.
    change ("" +:+ String c rest) with (String c rest).
    cbn [split_go]. by rewrite Hr.
  - simpl in Hs. apply andb_true_iff in Hs as [Hc Hs].
    rewrite append_cons. cbn [split_go]. rewrite Hc. by apply IH.
Qed.

(** A token, a separator, and the rest. *)
Lemma split_cons (t s rest : string) :
  is_token t = true -> is_separator s = true -> stops is_sep rest ->
  split (t +:+ s +:+ rest) = t :: split rest.
Proof.
  intros Ht Hs Hr. unfold split. rewrite split_go_token by done.
  unfold is_separator in Hs. apply andb_true_iff in Hs as [Hs Hne].
  destruct s as [|c s]; [done|]. simpl in Hs.
  apply andb_true_iff in Hs as [Hc Hs].
  rewrite append_cons. cbn [split_go]. rewrite Hc.
  by rewrite split_go_skip.
Qed.

Lemma split_token (t : string) : is_token t = true -> split t = [t].
Proof.
  intros Ht. unfold split.
  rewrite <- (append_nil_r t) at 1. by rewrite split_go_token.
Qed.

Lemma token_stops (t rest : string) :
  is_token t = true -> is_empty t = false -> stops is_sep (t +:+ rest).
Proof.
  destruct t as [|c t]; [done|]. simpl. intros Ht _.
  apply andb_true_iff in Ht as [Hc _]. by apply negb_true_iff in Hc.
Qed.

(** X25. The four numbers of a viewBox may be separated by any mix of
    spaces, commas and tabs: four non-empty tokens joined by three
    separators are split into these four tokens, whatever the separators
    are. *)
Theorem split_viewbox (t0 t1 t2 t3 s1 s2 s3 : string) :
  is_token t0 = true -> is_token t1 = true ->
  is_token t2 = true -> is_token t3 = true ->
  is_empty t1 = false -> is_empty t2 = false -> is_empty t3 = false ->
  is_separator s1 = true -> is_separator s2 = true -> is_separator s3 = true ->
  split (t0 +:+ s1 +:+ t1 +:+ s2 +:+ t2 +:+ s3 +:+ t3) = [t0; t1; t2; t3].
Proof.
  intros H0 H1 H2 H3 N1 N2 N3 S1 S2 S3.
  rewrite split_cons by (done || by apply token_stops).
  rewrite split_cons by (done || by apply token_stops).
  rewrite split_cons; [|done|done|].
  - by rewrite split_token.
  - rewrite <- (append_nil_r t3). by apply token_stops.
Qed.

End Split.

Lemma split_viewbox_witness :
  is_token "0" = true /\ is_token "-5.5" = true /\ is_token "100" = true
  /\ is_token "50" = true /\ is_separator ", " = true
  /\ is_separator " " = true /\ is_separator "," = true
  /\ Re.split ("0" +:+ ", " +:+ "-5.5" +:+ " " +:+ "100" +:+ "," +:+ "50")
     = ["0"; "-5.5"; "100"; "50"].
Proof.
  refine (conj eq_refl (conj eq_refl (conj eq_refl (conj eq_refl
           (conj eq_refl (conj eq_refl (conj eq_refl _))))))).
  exact (split_viewbox "0" "-5.5" "100" "50" ", " " " ","
           eq_refl eq_refl eq_refl eq_refl eq_refl eq_refl eq_refl
           eq_refl eq_refl eq_refl).
Defined.

(** ** Longest and shortest together *)

(** X26. On a source whose sides differ, longest and shortest given
    together fix both sides and override an explicit width and height:
    the longer side gets the value of longest and the shorter side that of
    shortest. *)
Theorem longest_and_shortest (options : Options) (width height m lv sv : Qc)
    (w h : option Qc) :
  width ≠ height ->
  parse_length (opt_margin options) "mm" = Ok m ->
  supplied (opt_width options) = Ok w ->
  supplied (opt_height options) = Ok h ->
  supplied (opt_longest options) = Ok (Some lv) ->
  supplied (opt_shortest options) = Ok (Some sv) ->
  target_options options width height
  = Ok (m, Some (if Qc_ltb height width then lv else sv),
           Some (if Qc_ltb height width then sv else lv)).
Proof.
  intros Hne Hm Hw Hh Hl Hs.
  assert (Qc_ltb width height = negb (Qc_ltb height width)) as Hlt.
  { destruct (Qc_ltb height width) eqn:E; simpl.
    - apply Qc_ltb_false. apply Qc_ltb_spec in E. by apply Qclt_le_weak.
    - apply Qc_ltb_spec. apply Qc_ltb_false in E.
      destruct (Qcle_lt_or_eq _ _ E) as [?|?]; [done|]. congruence. }
  unfold target_options. rewrite Hm. cbn [rbind Ok].
  apply supplied_case in Hw as [[-> ->]|(x & -> & -> & ->)];
  apply supplied_case in Hh as [[-> ->]|(y & -> & -> & ->)];
  apply supplied_case in Hl as [[_ [=]]|(z & -> & -> & [= <-])];
  apply supplied_case in Hs as [[_ [=]]|(u & -> & -> & [= <-])];
  cbn [rbind Ok]; rewrite Hlt;
  destruct (Qc_ltb height width); reflexivity.
Qed.

Lemma longest_and_shortest_witness :
  Q2Qc 100 ≠ Q2Qc 50
  /\ parse_length (opt_margin four_rules) "mm" = Ok (Q2Qc 0.0)
  /\ supplied (opt_width four_rules) = Ok (Some (Q2Qc 10))
  /\ supplied (opt_height four_rules) = Ok (Some (Q2Qc 20))
  /\ supplied (opt_longest four_rules) = Ok (Some (Q2Qc 300))
  /\ supplied (opt_shortest four_rules) = Ok (Some (Q2Qc 400))
  /\ target_options four_rules (Q2Qc 100) (Q2Qc 50)
     = Ok (Q2Qc 0.0,
           Some (if Qc_ltb (Q2Qc 50) (Q2Qc 100) then Q2Qc 300 else Q2Qc 400),
           Some (if Qc_ltb (Q2Qc 50) (Q2Qc 100) then Q2Qc 400 else Q2Qc 300)).
Proof.
  assert (Q2Qc 100 ≠ Q2Qc 50) as H0 by qc_ne.
  assert (supplied (opt_width four_rules) = Ok (Some (Q2Qc 10))) as H1
    by qc_eval.
  assert (supplied (opt_height four_rules) = Ok (Some (Q2Qc 20))) as H2
    by qc_eval.
  assert (supplied (opt_longest four_rules) = Ok (Some (Q2Qc 300))) as H3
    by qc_eval.
  assert (supplied (opt_shortest four_rules) = Ok (Some (Q2Qc 400))) as H4
    by qc_eval.
  refine (conj H0 (conj eq_refl (conj H1 (conj H2 (conj H3 (conj H4 _)))))).
  exact (longest_and_shortest four_rules _ _ _ _ _ _ _ H0 eq_refl H1 H2 H3 H4).
Defined.
